(** * The approval workflow engine of the expense application

    A shallow embedding of [services/approvalService.js] (class
    [ApprovalService]) and of the decision route of
    [backend/routes/approvals.js], over the tables of
    [database/schema.sql].

    The PostgreSQL store is a record of tables, each a list of rows in
    insertion order.  Every service method that wraps its statements in
    BEGIN / COMMIT / ROLLBACK becomes a state-and-error computation run by
    [transaction]: a thrown error gives back the store as it was before. *)

From Stdlib Require Import ZArith List Bool String Lia Permutation Sorted.
From Stdlib Require Import Floats Uint63.
Import ListNotations.
Open Scope Z_scope.

(** ** Tables *)

Module Schema.

(** [CHECK (status IN ('pending','approved','rejected','processing'))];
    the ledger table allows the first three only. *)
Inductive Status := pending | approved | rejected | processing.

(** [approval_rules.rule_type] *)
Inductive RuleType := sequential | percentage | specific_approver | hybrid.

(** [approval_rule_steps.approver_role] *)
Module ApproverRole.
Inductive t := manager | admin | specific_user.
End ApproverRole.

(** [users.role] *)
Module UserRole.
Inductive t := admin | manager | employee.
End UserRole.

(** Nullable columns are [option]s.  Amounts are decimal numbers
    (DECIMAL(15,2) columns, and the amount a rule is selected for), held as
    integers in one common unit, the hundredth; only their order matters.
    A BOOLEAN column only ever appears as [col = true], so NULL and FALSE
    are both [false].  The SERIAL key and the creation timestamps of the
    ledger and notification rows are read by no statement of the service and
    are left out, and so are the foreign keys. *)

(** [approval_rules ar] *)
Record ApprovalRule := {
  ar_id : Z;
  ar_company_id : option Z;
  ar_rule_type : RuleType;
  ar_min_amount : option Z;
  ar_max_amount : option Z;
  ar_percentage_required : option Z;
  ar_specific_approver_id : option Z;
  ar_sequence_order : option Z;
  ar_is_active : bool
}.

(** [approval_rule_steps ars] *)
Record ApprovalRuleStep := {
  ars_rule_id : Z;
  ars_step_order : Z;
  ars_approver_role : option ApproverRole.t;
  ars_approver_id : option Z
}.

(** [users u] *)
Record User := {
  u_id : Z;
  u_company_id : option Z;
  u_role : UserRole.t;
  u_manager_id : option Z;
  u_is_active : bool
}.

(** [expenses e] *)
Record Expense := {
  e_id : Z;
  e_employee_id : option Z;
  e_company_id : option Z;
  e_status : Status;
  e_approval_rule_id : option Z
}.

(** [expense_approvals ea], the approval ledger *)
Record ExpenseApproval := {
  ea_expense_id : Z;
  ea_approver_id : option Z;
  ea_step_order : Z;
  ea_status : Status;
  ea_comments : option string;
  ea_approved_at : option Z
}.

(** [notifications] *)
Record Notification := {
  n_user_id : option Z;
  n_expense_id : Z;
  n_type : string;
  n_title : string;
  n_message : string
}.

Record DB := {
  approval_rules : list ApprovalRule;
  approval_rule_steps : list ApprovalRuleStep;
  users : list User;
  expenses : list Expense;
  expense_approvals : list ExpenseApproval;
  notifications : list Notification
}.

Definition Status_eqb (a b : Status) : bool :=
  match a, b with
  | pending, pending | approved, approved
  | rejected, rejected | processing, processing => true
  | _, _ => false
  end.

Definition Status_to_string (s : Status) : string :=
  match s with
  | pending => "pending"
  | approved => "approved"
  | rejected => "rejected"
  | processing => "processing"
  end.

Definition with_expense_approvals (db : DB) (l : list ExpenseApproval) : DB :=
  {| approval_rules := approval_rules db;
     approval_rule_steps := approval_rule_steps db;
     users := users db;
     expenses := expenses db;
     expense_approvals := l;
     notifications := notifications db |}.

Definition with_expenses (db : DB) (l : list Expense) : DB :=
  {| approval_rules := approval_rules db;
     approval_rule_steps := approval_rule_steps db;
     users := users db;
     expenses := l;
     expense_approvals := expense_approvals db;
     notifications := notifications db |}.

Definition with_notifications (db : DB) (l : list Notification) : DB :=
  {| approval_rules := approval_rules db;
     approval_rule_steps := approval_rule_steps db;
     users := users db;
     expenses := expenses db;
     expense_approvals := expense_approvals db;
     notifications := l |}.

End Schema.
Export Schema.

(** ** What the statements rely on from SQL and from JavaScript *)

Module Sql.

(** [col = $n]: never true when either side is NULL. *)
Definition eq_param (col : option Z) (v : Z) : bool :=
  match col with Some c => c =? v | None => false end.

Definition eq_null (a b : option Z) : bool :=
  match a, b with Some x, Some y => x =? y | _, _ => false end.

(** ORDER BY: a stable sort; [before a b] says that [a] sorts strictly
    before [b].  Rows that tie keep their table order (PostgreSQL leaves
    that order open). *)
Fixpoint insert_row {A} (before : A -> A -> bool) (x : A) (l : list A) : list A :=
  match l with
  | [] => [x]
  | y :: l' => if before y x then y :: insert_row before x l' else x :: l
  end.

Definition order_by {A} (before : A -> A -> bool) (l : list A) : list A :=
  fold_right (insert_row before) [] l.

(** Key comparisons with PostgreSQL's placement of NULL: first under DESC,
    last under ASC.  [Lt] means "sorts before". *)
Definition desc_nulls_first (a b : option Z) : comparison :=
  match a, b with
  | None, None => Eq
  | None, Some _ => Lt
  | Some _, None => Gt
  | Some x, Some y => y ?= x
  end.

Definition asc_nulls_last (a b : option Z) : comparison :=
  match a, b with
  | None, None => Eq
  | None, Some _ => Gt
  | Some _, None => Lt
  | Some x, Some y => x ?= y
  end.

End Sql.

Module Js.

(** [if (id)]: an id is truthy unless it is null, undefined or 0. *)
Definition truthy (id : option Z) : bool :=
  match id with Some z => negb (z =? 0) | None => false end.

(** A count or an INTEGER column read as a JavaScript number, an IEEE 754
    binary64 (exact below 2^53). *)
Definition Number (z : Z) : float :=
  if z <? 0 then PrimFloat.opp (PrimFloat.of_uint63 (Uint63.of_Z (- z)))
  else PrimFloat.of_uint63 (Uint63.of_Z z).

(** [x >= y] on numbers, with [null] read as 0. *)
Definition ge_nullable (x : float) (y : option Z) : bool :=
  PrimFloat.leb (Number (match y with Some z => z | None => 0 end)) x.

End Js.

(** ** Transactions *)

Module Tx.

Inductive Error :=
| TypeError      (* a property read from [rows[0]] of an empty result *)
| RuleNotFound.  (* [new Error('Approval rule not found')] *)

(** Statements issued on one client between BEGIN and COMMIT. *)
Definition t (A : Type) : Type := DB -> Error + (A * DB).

Definition ret {A} (a : A) : t A := fun db => inr (a, db).

Definition bind {A B} (m : t A) (k : A -> t B) : t B :=
  fun db => match m db with
            | inl e => inl e
            | inr (a, db') => k a db'
            end.

Definition throw {A} (e : Error) : t A := fun _ => inl e.

(** A SELECT. *)
Definition query {A} (f : DB -> A) : t A := fun db => inr (f db, db).

(** An INSERT or UPDATE. *)
Definition exec (f : DB -> DB) : t unit := fun db => inr (tt, f db).

(** [rows[0].field]: a TypeError when the result is empty. *)
Definition first_row {A} (rows : list A) : t A :=
  match rows with
  | r :: _ => ret r
  | [] => throw TypeError
  end.

(** [for (const x of xs) { await body(x) }] *)
Fixpoint for_each {A} (xs : list A) (body : A -> t unit) : t unit :=
  match xs with
  | [] => ret tt
  | x :: xs' => bind (body x) (fun _ => for_each xs' body)
  end.

(** BEGIN; body; COMMIT, with ROLLBACK and rethrow in the catch block. *)
Definition transaction {A} (body : t A) (db : DB) : (Error + A) * DB :=
  match body db with
  | inl e => (inl e, db)
  | inr (a, db') => (inr a, db')
  end.

End Tx.

Declare Scope tx_scope.
Delimit Scope tx_scope with tx.
Notation "x <- m ;; k" := (Tx.bind m (fun x => k))
  (at level 61, m at next level, right associativity) : tx_scope.
Notation "m ;;; k" := (Tx.bind m (fun _ => k))
  (at level 61, right associativity) : tx_scope.

(** ** [class ApprovalService] *)

Module ApprovalService.
Import Sql Js.
Local Open Scope tx_scope.

(** *** Rule selection *)

(** The WHERE clause of [getApplicableRule]. *)
Definition rule_applies (expenseAmount companyId : Z) (ar : ApprovalRule) : bool :=
  eq_param (ar_company_id ar) companyId
  && ar_is_active ar
  && match ar_min_amount ar with None => true | Some m => m <=? expenseAmount end
  && match ar_max_amount ar with None => true | Some m => expenseAmount <=? m end.

(** [ORDER BY min_amount DESC, sequence_order ASC] *)
Definition rule_before (a b : ApprovalRule) : bool :=
  match desc_nulls_first (ar_min_amount a) (ar_min_amount b) with
  | Lt => true
  | Gt => false
  | Eq => match asc_nulls_last (ar_sequence_order a) (ar_sequence_order b) with
          | Lt => true
          | _ => false
          end
  end.

(** [LIMIT 1], then [result.rows[0] || null]. *)
Definition getApplicableRule (db : DB) (expenseAmount companyId : Z)
  : option ApprovalRule :=
  hd_error (order_by rule_before
              (filter (rule_applies expenseAmount companyId) (approval_rules db))).

(** *** Workflow construction *)

Definition select_rule (ruleId : Z) (db : DB) : list ApprovalRule :=
  filter (fun ar => ar_id ar =? ruleId) (approval_rules db).

Definition select_expense (expenseId : Z) (db : DB) : list Expense :=
  filter (fun e => e_id e =? expenseId) (expenses db).

Definition select_user (userId : option Z) (db : DB) : list User :=
  filter (fun u => eq_null (Some (u_id u)) userId) (users db).

Definition ledger_of (expenseId : Z) (db : DB) : list ExpenseApproval :=
  filter (fun ea => ea_expense_id ea =? expenseId) (expense_approvals db).

(** [INSERT INTO expense_approvals (expense_id, approver_id, step_order, status)
     VALUES ($1, $2, $3, 'pending')] *)
Definition pending_row (expenseId : Z) (approverId : option Z) (stepOrder : Z)
  : ExpenseApproval :=
  {| ea_expense_id := expenseId;
     ea_approver_id := approverId;
     ea_step_order := stepOrder;
     ea_status := pending;
     ea_comments := None;
     ea_approved_at := None |}.

(** The foreign key of [expense_id] is not part of the tables here: what is
    proved of an INSERT below is proved for an expense that exists. *)
Definition insert_approval (expenseId : Z) (approverId : option Z) (stepOrder : Z)
  : Tx.t unit :=
  Tx.exec (fun db =>
    with_expense_approvals db
      (expense_approvals db ++ [pending_row expenseId approverId stepOrder])).

Definition step_before (a b : ApprovalRuleStep) : bool :=
  ars_step_order a <? ars_step_order b.

Definition select_steps (ruleId : Z) (db : DB) : list ApprovalRuleStep :=
  order_by step_before
    (filter (fun s => ars_rule_id s =? ruleId) (approval_rule_steps db)).

(** The approver of one step: [step.approver_id], replaced for a manager
    step by [manager.rows[0]?.manager_id] of the expense's employee. *)
Definition step_approver (expenseId : Z) (step : ApprovalRuleStep)
  : Tx.t (option Z) :=
  match ars_approver_role step with
  | Some ApproverRole.manager =>
      expense <- Tx.query (select_expense expenseId) ;;
      e <- Tx.first_row expense ;;
      manager <- Tx.query (select_user (e_employee_id e)) ;;
      Tx.ret (match manager with
              | m :: _ => u_manager_id m
              | [] => None
              end)
  | _ => Tx.ret (ars_approver_id step)
  end.

Definition createSequentialApprovals (expenseId ruleId : Z) : Tx.t unit :=
  steps <- Tx.query (select_steps ruleId) ;;
  Tx.for_each steps (fun step =>
    approverId <- step_approver expenseId step ;;
    if truthy approverId
    then insert_approval expenseId approverId (ars_step_order step)
    else Tx.ret tt).

(** [role IN ('manager', 'admin')] *)
Definition manager_or_admin (r : UserRole.t) : bool :=
  match r with
  | UserRole.manager | UserRole.admin => true
  | UserRole.employee => false
  end.

Definition select_approvers (companyId : option Z) (db : DB) : list User :=
  filter (fun u => eq_null (u_company_id u) companyId
                   && manager_or_admin (u_role u)
                   && u_is_active u) (users db).

Definition createPercentageApprovals (expenseId ruleId : Z) : Tx.t unit :=
  rule <- Tx.query (select_rule ruleId) ;;
  expense <- Tx.query (select_expense expenseId) ;;
  e <- Tx.first_row expense ;;
  approvers <- Tx.query (select_approvers (e_company_id e)) ;;
  Tx.for_each approvers (fun u => insert_approval expenseId (Some (u_id u)) 1).

Definition createSpecificApproverApproval (expenseId : Z) (approverId : option Z)
  : Tx.t unit :=
  insert_approval expenseId approverId 1.

Definition createHybridApprovals (expenseId ruleId : Z) : Tx.t unit :=
  createPercentageApprovals expenseId ruleId ;;;
  rule <- Tx.query (select_rule ruleId) ;;
  r <- Tx.first_row rule ;;
  if truthy (ar_specific_approver_id r)
  then createSpecificApproverApproval expenseId (ar_specific_approver_id r)
  else Tx.ret tt.

Definition createApprovalWorkflow (db : DB) (expenseId ruleId : Z)
  : (Tx.Error + unit) * DB :=
  Tx.transaction
    (rule <- Tx.query (select_rule ruleId) ;;
     match rule with
     | [] => Tx.throw Tx.RuleNotFound
     | approvalRule :: _ =>
         match ar_rule_type approvalRule with
         | sequential => createSequentialApprovals expenseId ruleId
         | percentage => createPercentageApprovals expenseId ruleId
         | specific_approver =>
             createSpecificApproverApproval expenseId
               (ar_specific_approver_id approvalRule)
         | hybrid => createHybridApprovals expenseId ruleId
         end
     end) db.

(** *** Decisions *)

(** [{ update: false }] and [{ update: true, status }]. *)
Inductive Outcome :=
| NoUpdate
| Update (s : Status).

Definition update (o : Outcome) : bool :=
  match o with NoUpdate => false | Update _ => true end.

Definition status (o : Outcome) : option Status :=
  match o with NoUpdate => None | Update s => Some s end.

Definition checkSequentialApproval (expenseId : Z) : Tx.t Outcome :=
  approvals <- Tx.query (fun db =>
    order_by (fun a b => ea_step_order a <? ea_step_order b)
             (ledger_of expenseId db)) ;;
  let allApproved :=
    forallb (fun approval => Status_eqb (ea_status approval) approved) approvals in
  let hasRejection :=
    existsb (fun approval => Status_eqb (ea_status approval) rejected) approvals in
  Tx.ret (if hasRejection then Update rejected
          else if allApproved then Update approved
          else NoUpdate).

(** [COUNT( * ) as total, COUNT(CASE WHEN status = 'approved' THEN 1 END) as approved] *)
Definition count_approvals (expenseId : Z) (db : DB) : Z * Z :=
  let rows := ledger_of expenseId db in
  (Z.of_nat (List.length rows),
   Z.of_nat (List.length (filter (fun ea => Status_eqb (ea_status ea) approved) rows))).

(** [(approved / total) * 100], in binary64 as JavaScript computes it. *)
Definition approvalPercentage (approved_ total : Z) : float :=
  PrimFloat.mul (PrimFloat.div (Number approved_) (Number total)) (Number 100).

Definition checkPercentageApproval (expenseId : Z) (requiredPercentage : option Z)
  : Tx.t Outcome :=
  approvals <- Tx.query (count_approvals expenseId) ;;
  let '(total, approved_) := approvals in
  Tx.ret (if ge_nullable (approvalPercentage approved_ total) requiredPercentage
          then Update approved
          else NoUpdate).

(** The three-table join of [checkHybridApproval]:
    [expense_approvals ea JOIN approval_rules ar ON ar.specific_approver_id = ea.approver_id
     JOIN expenses e ON e.approval_rule_id = ar.id
     WHERE e.id = $1 AND ea.status = 'approved']. *)
Definition select_specific_approval (expenseId : Z) (db : DB)
  : list ExpenseApproval :=
  flat_map (fun ea =>
    flat_map (fun ar =>
      flat_map (fun e =>
        if eq_null (ar_specific_approver_id ar) (ea_approver_id ea)
           && eq_param (e_approval_rule_id e) (ar_id ar)
           && (e_id e =? expenseId)
           && Status_eqb (ea_status ea) approved
        then [ea] else [])
        (expenses db))
      (approval_rules db))
    (expense_approvals db).

Definition checkHybridApproval (expenseId : Z) (requiredPercentage : option Z)
  : Tx.t Outcome :=
  specificApproval <- Tx.query (select_specific_approval expenseId) ;;
  match specificApproval with
  | _ :: _ => Tx.ret (Update approved)
  | [] => checkPercentageApproval expenseId requiredPercentage
  end.

Definition shouldUpdateExpenseStatus (expenseId : Z) (action : Status)
  : Tx.t Outcome :=
  expense <- Tx.query (select_expense expenseId) ;;
  e <- Tx.first_row expense ;;
  rule <- Tx.query (fun db =>
    match e_approval_rule_id e with
    | Some ruleId => select_rule ruleId db
    | None => []
    end) ;;
  match rule with
  | [] => Tx.ret NoUpdate
  | approvalRule :: _ =>
      if Status_eqb action rejected then Tx.ret (Update rejected)
      else match ar_rule_type approvalRule with
           | sequential => checkSequentialApproval expenseId
           | percentage =>
               checkPercentageApproval expenseId
                 (ar_percentage_required approvalRule)
           | specific_approver => Tx.ret (Update approved)
           | hybrid =>
               checkHybridApproval expenseId
                 (ar_percentage_required approvalRule)
           end
  end.

(** [UPDATE expense_approvals SET status = $1, comments = $2,
     approved_at = CURRENT_TIMESTAMP
     WHERE expense_id = $3 AND approver_id = $4 AND status = 'pending'] *)
Definition decide_row (now : Z) (expenseId approverId : Z) (action : Status)
  (comments : option string) (ea : ExpenseApproval) : ExpenseApproval :=
  if (ea_expense_id ea =? expenseId)
     && eq_param (ea_approver_id ea) approverId
     && Status_eqb (ea_status ea) pending
  then {| ea_expense_id := ea_expense_id ea;
          ea_approver_id := ea_approver_id ea;
          ea_step_order := ea_step_order ea;
          ea_status := action;
          ea_comments := comments;
          ea_approved_at := Some now |}
  else ea.

(** [UPDATE expenses SET status = $1 WHERE id = $2] *)
Definition set_status (expenseId : Z) (s : Status) (e : Expense) : Expense :=
  if e_id e =? expenseId
  then {| e_id := e_id e;
          e_employee_id := e_employee_id e;
          e_company_id := e_company_id e;
          e_status := s;
          e_approval_rule_id := e_approval_rule_id e |}
  else e.

Definition status_notification (userId : option Z) (expenseId : Z) (s : Status)
  : Notification :=
  {| n_user_id := userId;
     n_expense_id := expenseId;
     n_type := "expense_status_update";
     n_title := String.append "Expense " (Status_to_string s);
     n_message := String.append "Your expense has been " (Status_to_string s) |}.

(** [now] is the CURRENT_TIMESTAMP of the transaction.  The only caller, the
    route below, passes 'approved' or 'rejected' as [action]. *)
Definition processApproval (now : Z) (db : DB) (expenseId approverId : Z)
  (action : Status) (comments : option string) : (Tx.Error + Outcome) * DB :=
  Tx.transaction
    (Tx.exec (fun db =>
       with_expense_approvals db
         (map (decide_row now expenseId approverId action comments)
              (expense_approvals db))) ;;;
     shouldUpdateExpense <- shouldUpdateExpenseStatus expenseId action ;;
     match shouldUpdateExpense with
     | Update s =>
         Tx.exec (fun db =>
           with_expenses db (map (set_status expenseId s) (expenses db))) ;;;
         expense <- Tx.query (select_expense expenseId) ;;
         e <- Tx.first_row expense ;;
         Tx.exec (fun db =>
           with_notifications db
             (notifications db
              ++ [status_notification (e_employee_id e) expenseId s]))
     | NoUpdate => Tx.ret tt
     end ;;;
     Tx.ret shouldUpdateExpense) db.

End ApprovalService.

(** ** [router.post('/:expenseId/process')] *)

Module ApprovalsRoute.
Import Sql.

(** [req.user] as [authenticateToken] leaves it.  The two middlewares,
    [authenticateToken] and [requireRole(['manager', 'admin'])], run before
    the handler; the handler is taken from its first statement. *)
Record AuthUser := {
  id : Z;
  company_id : option Z
}.

Inductive Response :=
| BadRequest                    (* 400, the body fails [approvalActionSchema] *)
| NoPendingApproval             (* 404, 'No pending approval found for this expense' *)
| Failed                        (* 500, 'Failed to process approval' *)
| Processed (expenseUpdated : bool) (finalStatus : option Status).

(** [approvalActionSchema]: action is 'approved' or 'rejected'; comments,
    when given, is a non-empty string of at most 500 characters. *)
Definition approvalActionSchema (action : Status) (comments : option string) : bool :=
  match action with
  | approved | rejected => true
  | _ => false
  end
  && match comments with
     | None => true
     | Some c => (Nat.leb 1 (String.length c) && Nat.leb (String.length c) 500)%nat
     end.

(** The guard query: the caller's pending ledger rows for the expense, joined
    with the expense of the caller's company. *)
Definition pendingApproval (db : DB) (user : AuthUser) (expenseId : Z)
  : list ExpenseApproval :=
  flat_map (fun ea =>
    flat_map (fun e =>
      if (ea_expense_id ea =? e_id e)
         && (ea_expense_id ea =? expenseId)
         && eq_param (ea_approver_id ea) (id user)
         && Status_eqb (ea_status ea) pending
         && eq_null (e_company_id e) (company_id user)
      then [ea] else [])
      (expenses db))
    (expense_approvals db).

Definition process (now : Z) (db : DB) (user : AuthUser) (expenseId : Z)
  (action : Status) (comments : option string) : Response * DB :=
  if negb (approvalActionSchema action comments) then (BadRequest, db)
  else
    match pendingApproval db user expenseId with
    | [] => (NoPendingApproval, db)
    | _ :: _ =>
        match ApprovalService.processApproval now db expenseId (id user)
                action comments with
        | (inr result, db') =>
            (Processed (ApprovalService.update result)
                       (ApprovalService.status result), db')
        | (inl _, db') => (Failed, db')
        end
    end.

End ApprovalsRoute.

(** * The administrator's routes of [backend/routes/approvals.js] *)

Module ApprovalsAdmin.
Import Sql ApprovalService ApprovalsRoute.

(** [audit_logs]; [new_values] is [JSON.stringify({ action, comments })],
    kept as the pair it is made of. *)
Record AuditLog := {
  al_user_id : Z;
  al_expense_id : Z;
  al_action : string;
  al_new_values : Status * option string
}.

(** The tables above together with the audit log. *)
Record Store := {
  db : DB;
  audit_logs : list AuditLog
}.

Inductive Response :=
| BadRequest   (* 400, the body fails [approvalActionSchema] *)
| Done.        (* 200 *)

(** [`Admin override: ${comments || ''}`] *)
Definition override_comment (comments : option string) : string :=
  String.append "Admin override: "
    (match comments with Some c => c | None => EmptyString end).

(** [UPDATE expenses SET status = $1 WHERE id = $2 AND company_id = $3] *)
Definition set_status_in_company (expenseId : Z) (companyId : option Z)
  (s : Status) (e : Expense) : Expense :=
  if (e_id e =? expenseId) && eq_null (e_company_id e) companyId
  then {| e_id := e_id e;
          e_employee_id := e_employee_id e;
          e_company_id := e_company_id e;
          e_status := s;
          e_approval_rule_id := e_approval_rule_id e |}
  else e.

(** [UPDATE expense_approvals SET status = $1, comments = $2,
     approved_at = CURRENT_TIMESTAMP WHERE expense_id = $3 AND status = 'pending'] *)
Definition force_row (now expenseId : Z) (action : Status)
  (comments : option string) (ea : ExpenseApproval) : ExpenseApproval :=
  if (ea_expense_id ea =? expenseId) && Status_eqb (ea_status ea) pending
  then {| ea_expense_id := ea_expense_id ea;
          ea_approver_id := ea_approver_id ea;
          ea_step_order := ea_step_order ea;
          ea_status := action;
          ea_comments := Some (override_comment comments);
          ea_approved_at := Some now |}
  else ea.

Definition override_notification (userId : option Z) (expenseId : Z) (s : Status)
  : Notification :=
  {| n_user_id := userId;
     n_expense_id := expenseId;
     n_type := "admin_override";
     n_title := String.append "Expense "
                  (String.append (Status_to_string s) " by Admin");
     n_message := String.append "Your expense has been "
                    (String.append (Status_to_string s) " by an administrator") |}.

(** [router.post('/:expenseId/override')], from the handler's first statement
    ([requireRole(['admin'])] has let the caller in).  With the foreign keys
    left out no statement of the transaction throws; the INSERT into
    audit_logs is where they would refuse an expense id that names no
    expense. *)
Definition override (now : Z) (store : Store) (user : AuthUser) (expenseId : Z)
  (action : Status) (comments : option string) : Response * Store :=
  if negb (approvalActionSchema action comments) then (BadRequest, store)
  else
    let db1 :=
      with_expenses (db store)
        (map (set_status_in_company expenseId (company_id user) action)
             (expenses (db store))) in
    let db2 :=
      with_expense_approvals db1
        (map (force_row now expenseId action comments) (expense_approvals db1)) in
    let audit :=
      audit_logs store
      ++ [ {| al_user_id := id user;
              al_expense_id := expenseId;
              al_action := "admin_override";
              al_new_values := (action, comments) |} ] in
    let db3 :=
      match select_expense expenseId db2 with
      | e :: _ =>
          with_notifications db2
            (notifications db2
             ++ [override_notification (e_employee_id e) expenseId action])
      | [] => db2
      end in
    (Done, {| db := db3; audit_logs := audit |}).

(** The body of a rule as [approvalRuleSchema.validate] hands it on, with
    its defaults filled in ([minAmount] 0, [sequenceOrder] 1); the name of
    the rule and [isRequired] of a step are columns left out of the tables
    above. *)
Record StepValue := {
  stepOrder : Z;
  approverRole : ApproverRole.t;
  approverId : option Z
}.

Record RuleValue := {
  ruleType : RuleType;
  minAmount : Z;
  maxAmount : option Z;
  percentageRequired : option Z;
  specificApproverId : option Z;
  sequenceOrder : Z;
  steps : option (list StepValue)
}.

Definition step_row (ruleId : Z) (step : StepValue) : ApprovalRuleStep :=
  {| ars_rule_id := ruleId;
     ars_step_order := stepOrder step;
     ars_approver_role := Some (approverRole step);
     ars_approver_id := approverId step |}.

(** [if (ruleType === 'sequential' && steps) for (const step of steps) INSERT] *)
Definition submitted_steps (ruleId : Z) (value : RuleValue)
  : list ApprovalRuleStep :=
  match ruleType value, steps value with
  | sequential, Some l => map (step_row ruleId) l
  | _, _ => []
  end.

(** [UPDATE approval_rules SET ... WHERE id = $8 AND company_id = $9] *)
Definition rewrite_rule (ruleId : Z) (companyId : option Z) (value : RuleValue)
  (ar : ApprovalRule) : ApprovalRule :=
  if (ar_id ar =? ruleId) && eq_null (ar_company_id ar) companyId
  then {| ar_id := ar_id ar;
          ar_company_id := ar_company_id ar;
          ar_rule_type := ruleType value;
          ar_min_amount := Some (minAmount value);
          ar_max_amount := maxAmount value;
          ar_percentage_required := percentageRequired value;
          ar_specific_approver_id := specificApproverId value;
          ar_sequence_order := Some (sequenceOrder value);
          ar_is_active := ar_is_active ar |}
  else ar.

Definition with_rules (d : DB) (rules : list ApprovalRule)
  (rule_steps : list ApprovalRuleStep) : DB :=
  {| approval_rules := rules;
     approval_rule_steps := rule_steps;
     users := users d;
     expenses := expenses d;
     expense_approvals := expense_approvals d;
     notifications := notifications d |}.

(** What the statements of [router.put('/rules/:ruleId')] write when none
    of them is refused: the rule row is rewritten when it is the company's,
    then [DELETE FROM approval_rule_steps WHERE rule_id = $1] and the INSERTs
    of the submitted steps. *)
Definition updateRule (d : DB) (user : AuthUser) (ruleId : Z) (value : RuleValue)
  : DB :=
  with_rules d
    (map (rewrite_rule ruleId (company_id user) value) (approval_rules d))
    (filter (fun s => negb (ars_rule_id s =? ruleId)) (approval_rule_steps d)
     ++ submitted_steps ruleId value).






Inductive DeleteResponse :=
| InUse      (* 400, 'Cannot delete approval rule that is in use by existing expenses' *)
| Deleted.   (* 200, 'Approval rule deleted successfully' *)

(** [router.delete('/rules/:ruleId')].  The steps of a deleted rule go with
    it ([rule_id ... REFERENCES approval_rules(id) ON DELETE CASCADE]). *)
Definition deleteRule (d : DB) (user : AuthUser) (ruleId : Z)
  : DeleteResponse * DB :=
  let inUse :=
    filter (fun e => eq_param (e_approval_rule_id e) ruleId) (expenses d) in
  match inUse with
  | _ :: _ => (InUse, d)
  | [] =>
      let doomed r :=
        (ar_id r =? ruleId) && eq_null (ar_company_id r) (company_id user) in
      (Deleted,
       with_rules d
         (filter (fun r => negb (doomed r)) (approval_rules d))
         (if existsb doomed (approval_rules d)
          then filter (fun s => negb (ars_rule_id s =? ruleId))
                      (approval_rule_steps d)
          else approval_rule_steps d))
  end.

End ApprovalsAdmin.

(** * [class CurrencyService]: the exchange-rate cache *)

Module CurrencyService.
Section Cache.

(** [response.data.rates], whatever the API sends. *)
Variable Rates : Type.

(** [{ rates, timestamp }] *)
Record Entry := {
  rates : Rates;
  timestamp : Z
}.

(** [this.exchangeRateCache = new Map()], read and written by key only. *)
Definition Cache : Type := list (string * Entry).

Fixpoint get (key : string) (cache : Cache) : option Entry :=
  match cache with
  | [] => None
  | (k, v) :: rest => if String.eqb k key then Some v else get key rest
  end.

Definition set (key : string) (v : Entry) (cache : Cache) : Cache :=
  (key, v) :: filter (fun kv => negb (String.eqb (fst kv) key)) cache.

(** [this.cacheExpiry = 60 * 60 * 1000], one hour in milliseconds. *)
Definition cacheExpiry : Z := 60 * 60 * 1000.

Inductive Outcome :=
| Returned (r : Rates)
| Thrown.   (* [new Error('Unable to fetch exchange rates')] *)

(** [getExchangeRates(baseCurrency)].  [now] is [Date.now()] at the test of
    the cached entry.  [fetch] is what the request would give: [Some (r, t)]
    when [axios.get] answers with rates [r] and [Date.now()] is [t] when they
    are stored, [None] when the [try] block throws. *)
Definition getExchangeRates (now : Z) (fetch : option (Rates * Z))
  (baseCurrency : string) (cache : Cache) : Outcome * Cache :=
  let cached := get baseCurrency cache in
  let request :=
    match fetch with
    | Some (r, t) =>
        (Returned r, set baseCurrency {| rates := r; timestamp := t |} cache)
    | None =>
        match cached with
        | Some c => (Returned (rates c), cache)
        | None => (Thrown, cache)
        end
    end in
  match cached with
  | Some c =>
      if now - timestamp c <? cacheExpiry then (Returned (rates c), cache)
      else request
  | None => request
  end.

End Cache.
End CurrencyService.

(** * [class OCRService]: the category of a receipt *)

Module OcrService.

(** The [categories] object of [categorizeExpense], in the order of its
    keys. *)
Definition categories : list (string * list string) :=
  [ ("Food", ["restaurant"; "cafe"; "food"; "dining"; "meal"; "lunch";
              "dinner"; "breakfast"; "pizza"; "burger"]);
    ("Travel", ["taxi"; "uber"; "lyft"; "flight"; "airline"; "train"; "bus";
                "transport"; "fuel"; "gas"]);
    ("Accommodation", ["hotel"; "motel"; "inn"; "lodge"; "accommodation";
                       "booking"; "airbnb"]);
    ("Office Supplies", ["office"; "supplies"; "stationery"; "paper"; "pen";
                         "computer"; "software"]);
    ("Entertainment", ["entertainment"; "movie"; "theater"; "concert";
                       "event"; "tickets"]);
    ("Training", ["training"; "course"; "seminar"; "workshop"; "conference";
                  "education"]) ]%string.

(** [lowerText.includes(keyword)] *)
Definition includes (lowerText keyword : string) : bool :=
  match String.index 0 keyword lowerText with
  | Some _ => true
  | None => false
  end.

(** [for (const [category, keywords] of Object.entries(categories))
       if (keywords.some(keyword => lowerText.includes(keyword))) return category] *)
Fixpoint first_category (lowerText : string)
  (entries : list (string * list string)) : option string :=
  match entries with
  | [] => None
  | (category, keywords) :: rest =>
      if existsb (includes lowerText) keywords then Some category
      else first_category lowerText rest
  end.

(** [categorizeExpense(text)]; [toLowerCase] stands for
    [String.prototype.toLowerCase]. *)
Definition categorizeExpense (toLowerCase : string -> string) (text : string)
  : string :=
  match first_category (toLowerCase text) categories with
  | Some category => category
  | None => "Other"%string
  end.

(** The names of the categories that [database/schema.sql] inserts. *)
Definition default_categories : list string :=
  ["Food"; "Travel"; "Accommodation"; "Office Supplies"; "Entertainment";
   "Training"; "Other"]%string.

End OcrService.

(** * Notions the properties are stated with *)

Module Observe.
Import ApprovalService.

(** The status of an expense, as [SELECT status FROM expenses WHERE id = $1]
    would give it. *)
Definition expense_status (db : DB) (expenseId : Z) : option Status :=
  option_map e_status (hd_error (ApprovalService.select_expense expenseId db)).

(** The approver holds a Pending ledger row of the expense. *)
Definition holds_pending (db : DB) (expenseId approverId : Z) (ea : ExpenseApproval)
  : Prop :=
  In ea (expense_approvals db)
  /\ ea_expense_id ea = expenseId
  /\ ea_approver_id ea = Some approverId
  /\ ea_status ea = pending.

Definition terminal (s : Status) : Prop := s = approved \/ s = rejected.

(** The expense is one of the caller's company. *)
Definition in_company (db : DB) (expenseId : Z) (user : ApprovalsRoute.AuthUser)
  : Prop :=
  exists e c,
    In e (expenses db) /\ e_id e = expenseId
    /\ e_company_id e = Some c /\ ApprovalsRoute.company_id user = Some c.

(** The ledger after [UPDATE expense_approvals ... WHERE ... status = 'pending']. *)
Definition decided (now : Z) (db : DB) (expenseId approverId : Z)
  (action : Status) (comments : option string) : DB :=
  with_expense_approvals db
    (map (decide_row now expenseId approverId action comments)
         (expense_approvals db)).

(** The store after [UPDATE expenses SET status] and the notification. *)
Definition closed (db : DB) (expenseId : Z) (employeeId : option Z) (s : Status) : DB :=
  with_notifications
    (with_expenses db (map (set_status expenseId s) (expenses db)))
    (notifications db ++ [status_notification employeeId expenseId s]).

(** The employee's manager, as a manager step looks it up. *)
Definition manager_of (db : DB) (e : Expense) : option Z :=
  match select_user (e_employee_id e) db with
  | m :: _ => u_manager_id m
  | [] => None
  end.

(** The approver a step gets in the code: the manager for a manager step,
    [step.approver_id] for every other role. *)
Definition approver_of (db : DB) (e : Expense) (step : ApprovalRuleStep)
  : option Z :=
  match ars_approver_role step with
  | Some ApproverRole.manager => manager_of db e
  | _ => ars_approver_id step
  end.

Definition sequential_rows (db : DB) (e : Expense) (steps : list ApprovalRuleStep)
  : list ExpenseApproval :=
  map (fun s => pending_row (e_id e) (approver_of db e s) (ars_step_order s))
      (filter (fun s => Js.truthy (approver_of db e s)) steps).

(** Integers from [lo], [n] of them. *)
Definition range (lo : Z) (n : nat) : list Z :=
  map (fun i => lo + Z.of_nat i) (seq 0 n).

(** The binary64 test against the exact one, [required * total <= 100 * approved]. *)
Definition agrees (total approved_ required : Z) : bool :=
  Bool.eqb (Js.ge_nullable (approvalPercentage approved_ total) (Some required))
           (required * total <=? 100 * approved_).

Definition agree_upto (n : nat) : bool :=
  forallb (fun total =>
    forallb (fun approved_ =>
      forallb (agrees total approved_) (range 1 100))
      (range 0 (S (Z.to_nat total))))
    (range 1 n).

(** The test of [checkPercentageApproval] as the code computes it: in
    binary64, over every ledger row of the expense. *)
Definition percentage_reached (db : DB) (expenseId : Z) (required : option Z)
  : bool :=
  Js.ge_nullable
    (approvalPercentage
       (Z.of_nat (List.length
          (filter (fun ea => Status_eqb (ea_status ea) approved)
                  (ledger_of expenseId db))))
       (Z.of_nat (List.length (ledger_of expenseId db))))
    required.

(** Decisions recorded one after the other, each on the store the previous
    one left. *)
Fixpoint record_all (now : Z) (db : DB) (expenseId : Z) (approvers : list Z)
  (action : Status) (comments : option string)
  : list (Tx.Error + Outcome) * DB :=
  match approvers with
  | [] => ([], db)
  | a :: rest =>
      let '(r, db1) := processApproval now db expenseId a action comments in
      let '(rs, db2) := record_all now db1 expenseId rest action comments in
      (r :: rs, db2)
  end.

End Observe.
Export Observe.

(** * What the specification says, in its own words *)

Module Spec.

(** Rule Selector: a rule matches when it is the company's, is active, has
    [minAmount <= amount] and has [maxAmount] unset or [amount <= maxAmount]. *)
Definition Matches (amount companyId : Z) (r : ApprovalRule) : Prop :=
  ar_company_id r = Some companyId
  /\ ar_is_active r = true
  /\ (exists m, ar_min_amount r = Some m /\ m <= amount)
  /\ (ar_max_amount r = None \/ exists m, ar_max_amount r = Some m /\ amount <= m).

(** The data model gives every rule a [minAmount] and a [sequenceOrder]. *)
Definition Complete (r : ApprovalRule) : Prop :=
  ar_min_amount r <> None /\ ar_sequence_order r <> None.

(** [r] wins over [r']: higher [minAmount], ties broken by lower
    [sequenceOrder]. *)
Definition Preferred (r r' : ApprovalRule) : Prop :=
  exists m m' s s',
    ar_min_amount r = Some m /\ ar_min_amount r' = Some m'
    /\ ar_sequence_order r = Some s /\ ar_sequence_order r' = Some s'
    /\ (m' < m \/ (m' = m /\ s <= s')).

Definition StrictlyPreferred (r r' : ApprovalRule) : Prop :=
  exists m m' s s',
    ar_min_amount r = Some m /\ ar_min_amount r' = Some m'
    /\ ar_sequence_order r = Some s /\ ar_sequence_order r' = Some s'
    /\ (m' < m \/ (m' = m /\ s < s')).

(** Completion, Percentage: [(approvedCount / totalCount) * 100 >=
    percentageRequired], in integers as the integer [percentageRequired]
    asks for. *)
Definition percentage_satisfied (required : Z) (rows : list ExpenseApproval)
  : bool :=
  required * Z.of_nat (List.length rows)
  <=? 100 * Z.of_nat (List.length
                        (filter (fun ea => Status_eqb (ea_status ea) approved)
                                rows)).

Definition row_of (approver : Z) (ea : ExpenseApproval) : bool :=
  match ea_approver_id ea with
  | Some a => a =? approver
  | None => false
  end.

(** Completion, Hybrid, over the ledger rows of the expense: the dedicated
    specific-approver row is Approved, or the percentage predicate over the
    remaining rows is satisfied. *)
Definition hybrid_satisfied (required specific : Z)
  (rows : list ExpenseApproval) : bool :=
  existsb (fun ea => row_of specific ea && Status_eqb (ea_status ea) approved)
          rows
  || percentage_satisfied required
       (filter (fun ea => negb (row_of specific ea)) rows).

End Spec.

(** * Scenarios *)

Module Scenario.

Definition rules_db (rules : list ApprovalRule) : DB :=
  {| approval_rules := rules;
     approval_rule_steps := [];
     users := [];
     expenses := [];
     expense_approvals := [];
     notifications := [] |}.

(** Rule A: 0.00 to 100.00, Sequential; rule B: 0.00 to 1000.00, Percentage
    60%; both active rules of company 1. *)
Definition ruleA (sequenceOrder : Z) : ApprovalRule :=
  {| ar_id := 1;
     ar_company_id := Some 1;
     ar_rule_type := sequential;
     ar_min_amount := Some 0;
     ar_max_amount := Some 10000;
     ar_percentage_required := None;
     ar_specific_approver_id := None;
     ar_sequence_order := Some sequenceOrder;
     ar_is_active := true |}.

Definition ruleB (sequenceOrder : Z) : ApprovalRule :=
  {| ar_id := 2;
     ar_company_id := Some 1;
     ar_rule_type := percentage;
     ar_min_amount := Some 0;
     ar_max_amount := Some 100000;
     ar_percentage_required := Some 60;
     ar_specific_approver_id := None;
     ar_sequence_order := Some sequenceOrder;
     ar_is_active := true |}.

(** One company (id 1) with one rule (id 1) and one expense (id 1) submitted
    by employee 10; the ledger is built by [createApprovalWorkflow] and the
    decisions come in through the route. *)
Definition user (id : Z) (role : UserRole.t) (managerId : option Z) : User :=
  {| u_id := id;
     u_company_id := Some 1;
     u_role := role;
     u_manager_id := managerId;
     u_is_active := true |}.

Definition rule (type : RuleType) (percentageRequired specificApproverId : option Z)
  : ApprovalRule :=
  {| ar_id := 1;
     ar_company_id := Some 1;
     ar_rule_type := type;
     ar_min_amount := Some 0;
     ar_max_amount := None;
     ar_percentage_required := percentageRequired;
     ar_specific_approver_id := specificApproverId;
     ar_sequence_order := Some 1;
     ar_is_active := true |}.

Definition step (stepOrder : Z) (role : ApproverRole.t) (approverId : option Z)
  : ApprovalRuleStep :=
  {| ars_rule_id := 1;
     ars_step_order := stepOrder;
     ars_approver_role := Some role;
     ars_approver_id := approverId |}.

Definition expense1 : Expense :=
  {| e_id := 1;
     e_employee_id := Some 10;
     e_company_id := Some 1;
     e_status := pending;
     e_approval_rule_id := Some 1 |}.

Definition company (r : ApprovalRule) (steps : list ApprovalRuleStep)
  (staff : list User) : DB :=
  {| approval_rules := [r];
     approval_rule_steps := steps;
     users := staff;
     expenses := [expense1];
     expense_approvals := [];
     notifications := [] |}.

Definition submitted (db : DB) : DB :=
  snd (ApprovalService.createApprovalWorkflow db 1 1).

Definition respond (db : DB) (approver : Z) (action : Status) : ApprovalsRoute.Response :=
  fst (ApprovalsRoute.process 0 db
         {| ApprovalsRoute.id := approver; ApprovalsRoute.company_id := Some 1 |}
         1 action None).

Definition decide (db : DB) (approver : Z) (action : Status) : DB :=
  snd (ApprovalsRoute.process 0 db
         {| ApprovalsRoute.id := approver; ApprovalsRoute.company_id := Some 1 |}
         1 action None).

Definition decide_all (db : DB) (approvers : list Z) (action : Status) : DB :=
  fold_left (fun db a => decide db a action) approvers db.

(** [n] managers, with ids 101 to 100 + n. *)
Definition managers (n : nat) : list User :=
  map (fun i => user (100 + Z.of_nat i) UserRole.manager None) (seq 1 n).

Definition manager_ids (n : nat) : list Z :=
  map (fun i => 100 + Z.of_nat i) (seq 1 n).

(** A Percentage rule over [n] managers. *)
Definition percentage_company (required : Z) (n : nat) : DB :=
  company (rule percentage (Some required) None) []
          (user 10 UserRole.employee None :: managers n).

(** A Sequential rule: the employee's manager (101), then an admin step
    configured without an approver id, in a company with the admin 4. *)
Definition manager_then_admin : DB :=
  company (rule sequential None None)
          [step 1 ApproverRole.manager None; step 2 ApproverRole.admin None]
          [user 10 UserRole.employee (Some 101);
           user 101 UserRole.manager None;
           user 4 UserRole.admin None].

(** A Hybrid rule at 50% in a company of four managers, 101 to 104, the
    first of whom is the rule's specific approver: four percentage rows and
    the specific approver's row. *)
Definition hybrid_manager_company : DB :=
  company (rule hybrid (Some 50) (Some 101)) []
          (user 10 UserRole.employee None :: managers 4).

(** The same company with a second expense of employee 10 under the same
    rule.  Both workflows are built, and the specific approver 101 has
    approved the second expense, which closed it. *)
Definition expense2 : Expense :=
  {| e_id := 2;
     e_employee_id := Some 10;
     e_company_id := Some 1;
     e_status := pending;
     e_approval_rule_id := Some 1 |}.

Definition hybrid_two_expenses : DB :=
  let filed := with_expenses hybrid_manager_company [expense1; expense2] in
  let built := snd (ApprovalService.createApprovalWorkflow (submitted filed) 2 1) in
  snd (ApprovalsRoute.process 0 built
         {| ApprovalsRoute.id := 101; ApprovalsRoute.company_id := Some 1 |}
         2 approved None).

(** A Percentage rule at 50% over two managers, after manager 101 rejected. *)
Definition vetoed : DB :=
  decide (submitted (percentage_company 50 2)) 101 rejected.

(** A Percentage rule at 58% over fifty managers, just submitted. *)
Definition fifty_managers : DB := submitted (percentage_company 58 50).

(** A Sequential rule of three steps: the employee's manager (101), then
    the users 102 and 103. *)
Definition three_steps : DB :=
  company (rule sequential None None)
          [step 1 ApproverRole.manager None;
           step 2 ApproverRole.specific_user (Some 102);
           step 3 ApproverRole.specific_user (Some 103)]
          (user 10 UserRole.employee (Some 101) :: managers 3).

(** A Percentage rule in a company whose employee 10, the submitter of the
    expense, is a manager, beside manager 101. *)
Definition own_expense : DB :=
  company (rule percentage (Some 50) None) []
          (user 10 UserRole.manager None :: managers 1).

(** A SpecificApprover rule naming manager 101, in a company of two
    managers. *)
Definition one_approver : DB :=
  company (rule specific_approver None (Some 101)) []
          (user 10 UserRole.employee None :: managers 2).

(** An expense without rule, auto-approved at submission, beside a ledger
    row that names it. *)
Definition without_rule : DB :=
  {| approval_rules := [];
     approval_rule_steps := [];
     users := user 10 UserRole.employee None :: managers 1;
     expenses := [ {| e_id := 1; e_employee_id := Some 10;
                      e_company_id := Some 1; e_status := approved;
                      e_approval_rule_id := None |} ];
     expense_approvals := [];
     notifications := [] |}.

(** An active rule of company 1 without bounds. *)
Definition catch_all : ApprovalRule :=
  {| ar_id := 3;
     ar_company_id := Some 1;
     ar_rule_type := specific_approver;
     ar_min_amount := None;
     ar_max_amount := None;
     ar_percentage_required := None;
     ar_specific_approver_id := Some 101;
     ar_sequence_order := Some 5;
     ar_is_active := true |}.

(** A Sequential rule with no steps. *)
Definition no_steps : DB :=
  company (rule sequential None None) []
          [user 10 UserRole.employee (Some 101); user 101 UserRole.manager None].

(** Three steps, of which the manager 101 has approved; no audit record
    yet. *)
Definition one_of_three : ApprovalsAdmin.Store :=
  {| ApprovalsAdmin.db := decide (submitted three_steps) 101 approved;
     ApprovalsAdmin.audit_logs := [] |}.

(** Administrators of company 1 and of company 2. *)
Definition admin1 : ApprovalsRoute.AuthUser :=
  {| ApprovalsRoute.id := 4; ApprovalsRoute.company_id := Some 1 |}.

Definition admin2 : ApprovalsRoute.AuthUser :=
  {| ApprovalsRoute.id := 40; ApprovalsRoute.company_id := Some 2 |}.

(** A body that turns a rule into a SpecificApprover rule for user 104. *)
Definition to_specific : ApprovalsAdmin.RuleValue :=
  {| ApprovalsAdmin.ruleType := specific_approver;
     ApprovalsAdmin.minAmount := 0;
     ApprovalsAdmin.maxAmount := None;
     ApprovalsAdmin.percentageRequired := None;
     ApprovalsAdmin.specificApproverId := Some 104;
     ApprovalsAdmin.sequenceOrder := 1;
     ApprovalsAdmin.steps := None |}.

End Scenario.

(** * Notions for the further properties *)

Module Frame.
Import ApprovalService.

(** [db'] is [db] with Pending rows of the expense appended to the ledger,
    every other table as it was. *)
Definition Appends (expenseId : Z) (db db' : DB) : Prop :=
  exists rows,
    db' = with_expense_approvals db (expense_approvals db ++ rows)
    /\ forall ea, In ea rows ->
         ea = pending_row expenseId (ea_approver_id ea) (ea_step_order ea).

(** The builders that read the expense row before they insert anything:
    Percentage and Hybrid always; Sequential when a manager step comes first,
    the steps before it (if any) being of another role and without
    approver_id, so that the loop passes them without a statement. *)
Definition reads_expense_first (db : DB) (ruleId : Z) (r : ApprovalRule) : Prop :=
  match ar_rule_type r with
  | percentage | hybrid => True
  | specific_approver => False
  | sequential =>
      exists skipped s rest,
        select_steps ruleId db = skipped ++ s :: rest
        /\ ars_approver_role s = Some ApproverRole.manager
        /\ forall x, In x skipped ->
             ars_approver_role x <> Some ApproverRole.manager
             /\ Js.truthy (ars_approver_id x) = false
  end.

(** The caller's Pending rows of the expense: the rows a decision rewrites. *)
Definition targeted (expenseId approverId : Z) (ea : ExpenseApproval) : Prop :=
  ea_expense_id ea = expenseId
  /\ ea_approver_id ea = Some approverId
  /\ ea_status ea = pending.

End Frame.

(** * Properties *)

(** ** Sorting *)

Section OrderBy.
Context {A : Type} (before : A -> A -> bool).

Lemma insert_row_In (x y : A) (l : list A) :
  In y (Sql.insert_row before x l) <-> y = x \/ In y l.
Proof.
  induction l as [|z l IH]; simpl.
  - intuition congruence.
  - destruct (before z x); simpl; rewrite ?IH; intuition congruence.
Qed.

Lemma order_by_In (y : A) (l : list A) :
  In y (Sql.order_by before l) <-> In y l.
Proof.
  induction l as [|x l IH]; simpl; [tauto|].
  rewrite insert_row_In, IH. intuition congruence.
Qed.

Lemma order_by_nil (l : list A) : Sql.order_by before l = [] -> l = [].
Proof.
  destruct l as [|x l]; [reflexivity|]. intros E.
  assert (H : In x (Sql.order_by before (x :: l))) by (apply order_by_In; now left).
  rewrite E in H. destruct H.
Qed.

Lemma hd_insert_row (x : A) (s : list A) :
  hd_error (Sql.insert_row before x s) =
  match s with
  | [] => Some x
  | y :: _ => if before y x then Some y else Some x
  end.
Proof. destruct s as [|y s]; simpl; [reflexivity|]. now destruct (before y x). Qed.

Lemma insert_row_Permutation (x : A) (l : list A) :
  Permutation (Sql.insert_row before x l) (x :: l).
Proof.
  induction l as [|y l IH]; simpl; [reflexivity|].
  destruct (before y x); [|reflexivity].
  rewrite IH. apply perm_swap.
Qed.

Lemma order_by_Permutation (l : list A) : Permutation (Sql.order_by before l) l.
Proof.
  induction l as [|x l IH]; simpl; [reflexivity|].
  rewrite insert_row_Permutation. now constructor.
Qed.

Hypothesis before_asym : forall a b, before a b = true -> before b a = false.

(** In a sorted result no row sorts strictly before its predecessor. *)
Lemma insert_row_Sorted (x : A) (l : list A) :
  Sorted (fun a b => before b a = false) l ->
  Sorted (fun a b => before b a = false) (Sql.insert_row before x l).
Proof.
  induction 1 as [|y l Hs IH Hd]; simpl.
  - repeat constructor.
  - destruct (before y x) eqn:E.
    + constructor; [assumption|].
      destruct l as [|z l]; simpl in *.
      * constructor. now apply before_asym.
      * destruct (before z x); constructor.
        -- now inversion Hd.
        -- now apply before_asym.
    + constructor; [now constructor|]. now constructor.
Qed.

Lemma order_by_Sorted (l : list A) :
  Sorted (fun a b => before b a = false) (Sql.order_by before l).
Proof.
  induction l as [|x l IH]; simpl; [constructor|].
  now apply insert_row_Sorted.
Qed.
Hypothesis before_negtrans :
  forall a b c, before a b = false -> before b c = false -> before a c = false.

Lemma before_irrefl (a : A) : before a a = false.
Proof.
  destruct (before a a) eqn:E; [|reflexivity].
  rewrite (before_asym _ _ E) in E. discriminate.
Qed.

(** The first row of a sorted result is one of the rows, and no row sorts
    strictly before it. *)
Lemma hd_order_by_first (l : list A) (r : A) :
  hd_error (Sql.order_by before l) = Some r ->
  In r l /\ forall x, In x l -> before x r = false.
Proof.
  revert r. induction l as [|x l IH]; intros r; simpl; [discriminate|].
  rewrite hd_insert_row.
  destruct (Sql.order_by before l) as [|y s] eqn:E.
  - apply order_by_nil in E. subst l. intros [= <-]. split; [now left|].
    intros z [<-|[]]. apply before_irrefl.
  - destruct (IH y eq_refl) as [Hy Hmin].
    destruct (before y x) eqn:Eyx; intros [= <-].
    + split; [now right|]. intros z [<-|Hz]; auto.
    + split; [now left|]. intros z [<-|Hz]; [apply before_irrefl|].
      eapply before_negtrans; eauto.
Qed.

(** Ties keep their table order, so a row that sorts strictly before every
    other row is the first one. *)
Lemma hd_order_by_strict (l : list A) (r : A) :
  In r l ->
  (forall x, In x l -> x = r \/ before r x = true) ->
  hd_error (Sql.order_by before l) = Some r.
Proof.
  intros Hin Hbest.
  destruct (hd_error (Sql.order_by before l)) as [r'|] eqn:E.
  - destruct (hd_order_by_first _ _ E) as [Hr' Hmin].
    destruct (Hbest _ Hr') as [->|Hb]; [reflexivity|].
    rewrite (Hmin _ Hin) in Hb. discriminate.
  - destruct (Sql.order_by before l) eqn:E'; [|discriminate].
    apply order_by_nil in E'. subst l. destruct Hin.
Qed.

End OrderBy.

(** ** Rule selection *)

Section RuleSelection.
Import ApprovalService.

Lemma rule_before_asym (a b : ApprovalRule) :
  rule_before a b = true -> rule_before b a = false.
Proof.
  unfold rule_before, Sql.desc_nulls_first, Sql.asc_nulls_last.
  destruct (ar_min_amount a) as [ma|], (ar_min_amount b) as [mb|],
           (ar_sequence_order a) as [sa|], (ar_sequence_order b) as [sb|];
    try discriminate; try reflexivity;
    try destruct (Z.compare_spec mb ma); try destruct (Z.compare_spec ma mb);
    try destruct (Z.compare_spec sa sb); try destruct (Z.compare_spec sb sa);
    try discriminate; try reflexivity; lia.
Qed.

Lemma rule_before_negtrans (a b c : ApprovalRule) :
  rule_before a b = false -> rule_before b c = false -> rule_before a c = false.
Proof.
  unfold rule_before, Sql.desc_nulls_first, Sql.asc_nulls_last.
  destruct (ar_min_amount a) as [ma|], (ar_min_amount b) as [mb|],
           (ar_min_amount c) as [mc|],
           (ar_sequence_order a) as [sa|], (ar_sequence_order b) as [sb|],
           (ar_sequence_order c) as [sc|];
    try discriminate; try reflexivity;
    try destruct (Z.compare_spec mb ma); try destruct (Z.compare_spec mc mb);
    try destruct (Z.compare_spec mc ma);
    try destruct (Z.compare_spec sa sb); try destruct (Z.compare_spec sb sc);
    try destruct (Z.compare_spec sa sc);
    try discriminate; try reflexivity; lia.
Qed.

End RuleSelection.

Section RuleSelectionSpec.
Import ApprovalService Spec.

Lemma rule_applies_Matches (amount companyId : Z) (r : ApprovalRule) :
  Complete r ->
  rule_applies amount companyId r = true <-> Matches amount companyId r.
Proof.
  intros [Hm _]. unfold rule_applies, Matches, Sql.eq_param.
  destruct (ar_min_amount r) as [m|]; [|congruence].
  rewrite !andb_true_iff, Z.leb_le. split.
  - intros [[[Hc Ha] Hmin] Hmax].
    destruct (ar_company_id r) as [c|]; [|discriminate].
    apply Z.eqb_eq in Hc. subst c.
    split; [reflexivity|]. split; [assumption|]. split.
    + exists m. now split.
    + destruct (ar_max_amount r) as [x|]; [right|now left].
      exists x. split; [reflexivity|]. now apply Z.leb_le.
  - intros (Hc & Ha & (m' & Hm' & Hle) & Hmax).
    injection Hm' as <-. rewrite Hc, Z.eqb_refl.
    repeat split; try assumption.
    destruct Hmax as [->|(x & -> & Hx)]; [reflexivity|]. now apply Z.leb_le.
Qed.

Lemma rule_before_false_Preferred (r r' : ApprovalRule) :
  Complete r -> Complete r' -> rule_before r' r = false -> Preferred r r'.
Proof.
  intros [Hm Hs] [Hm' Hs']. unfold rule_before, Preferred.
  destruct (ar_min_amount r) as [m|], (ar_min_amount r') as [m'|],
           (ar_sequence_order r) as [s|], (ar_sequence_order r') as [s'|];
    try congruence. simpl.
  intros H. exists m, m', s, s'. repeat split.
  destruct (Z.compare_spec m m'); destruct (Z.compare_spec s' s);
    try discriminate; lia.
Qed.

Lemma StrictlyPreferred_before (r r' : ApprovalRule) :
  StrictlyPreferred r r' -> rule_before r r' = true.
Proof.
  intros (m & m' & s & s' & Hm & Hm' & Hs & Hs' & H).
  unfold rule_before. rewrite Hm, Hm', Hs, Hs'. simpl.
  destruct (Z.compare_spec m' m); destruct (Z.compare_spec s s');
    try reflexivity; lia.
Qed.

(** C2 (as amended): over a rule table in which every rule has a minAmount
    and a sequenceOrder, [getApplicableRule] returns a rule that is the
    company's, active, with minAmount <= amount and maxAmount unset or
    amount <= maxAmount, and that no other match beats on higher minAmount
    then lower sequenceOrder; the match that strictly beats every other is
    the one returned; it returns null exactly when no rule matches.  For
    amount 50.00 with rule A (0 to 100, Sequential) and rule B (0 to 1000,
    Percentage) both active, in either table order, the selector returns A
    when A's sequenceOrder is the lower one, and B when B's is. *)
Theorem getApplicableRule_selects (db : DB) (amount companyId : Z) :
  (forall r, In r (approval_rules db) -> Complete r) ->
  (forall r, getApplicableRule db amount companyId = Some r ->
     In r (approval_rules db)
     /\ Matches amount companyId r
     /\ forall r', In r' (approval_rules db) -> Matches amount companyId r' ->
                   Preferred r r')
  /\ (forall r, In r (approval_rules db) -> Matches amount companyId r ->
        (forall r', In r' (approval_rules db) -> Matches amount companyId r' ->
                    r' = r \/ StrictlyPreferred r r') ->
        getApplicableRule db amount companyId = Some r)
  /\ (getApplicableRule db amount companyId = None <->
      forall r, In r (approval_rules db) -> ~ Matches amount companyId r)
  /\ (forall a b, a < b ->
        getApplicableRule (Scenario.rules_db [Scenario.ruleA a; Scenario.ruleB b]) 5000 1
          = Some (Scenario.ruleA a)
        /\ getApplicableRule (Scenario.rules_db [Scenario.ruleB b; Scenario.ruleA a]) 5000 1
          = Some (Scenario.ruleA a))
  /\ (forall a b, b < a ->
        getApplicableRule (Scenario.rules_db [Scenario.ruleA a; Scenario.ruleB b]) 5000 1
          = Some (Scenario.ruleB b)
        /\ getApplicableRule (Scenario.rules_db [Scenario.ruleB b; Scenario.ruleA a]) 5000 1
          = Some (Scenario.ruleB b)).
Proof.
  intros Hc. unfold getApplicableRule.
  set (matches := filter (rule_applies amount companyId) (approval_rules db)).
  assert (Hin : forall r, In r matches <->
                          In r (approval_rules db) /\ Matches amount companyId r).
  { intros r. unfold matches. rewrite filter_In. split.
    - intros [Hr Ha]. split; [assumption|].
      apply rule_applies_Matches; auto.
    - intros [Hr Hm]. split; [assumption|].
      apply rule_applies_Matches; auto. }
  split; [|split; [|split; [|split]]].
  - intros r H.
    apply (hd_order_by_first _ rule_before_asym rule_before_negtrans) in H.
    destruct H as [Hr Hmin]. apply Hin in Hr. destruct Hr as [Hr Hm].
    repeat split; try assumption; try apply Hm.
    intros r' Hr' Hm'.
    apply rule_before_false_Preferred; try apply Hc; try assumption.
    apply Hmin, Hin. now split.
  - intros r Hr Hm Hbest.
    apply (hd_order_by_strict _ rule_before_asym rule_before_negtrans).
    + apply Hin. now split.
    + intros x Hx. apply Hin in Hx. destruct Hx as [Hx Hmx].
      destruct (Hbest x Hx Hmx) as [->|Hs]; [now left|].
      right. now apply StrictlyPreferred_before.
  - split.
    + intros Hnone r Hr Hm.
      destruct (Sql.order_by rule_before matches) eqn:E; [|discriminate].
      apply order_by_nil in E.
      assert (Hx : In r matches) by (apply Hin; now split).
      rewrite E in Hx. destruct Hx.
    + intros Hno.
      destruct (Sql.order_by rule_before matches) as [|r s] eqn:E; [reflexivity|].
      exfalso.
      assert (Hx : In r matches).
      { apply (order_by_In rule_before). rewrite E. now left. }
      apply Hin in Hx. destruct Hx as [Hr Hm]. exact (Hno r Hr Hm).
  - intros a b Hab. cbn.
    destruct (Z.compare_spec b a), (Z.compare_spec a b); try lia; now split.
  - intros a b Hab. cbn.
    destruct (Z.compare_spec b a), (Z.compare_spec a b); try lia; now split.
Qed.

(** C2, the claim as stated fails: with rule B carrying the lower
    sequenceOrder, amount 50.00 selects B, not A. *)
Lemma getApplicableRule_returns_B :
  getApplicableRule
    (Scenario.rules_db [Scenario.ruleA 2; Scenario.ruleB 1]) 5000 1
  = Some (Scenario.ruleB 1).
Proof. reflexivity. Qed.

(** The theorem at work on the table [B; A] with A's sequenceOrder the
    lower one. *)
Lemma getApplicableRule_selects_witness :
  getApplicableRule
    (Scenario.rules_db [Scenario.ruleB 2; Scenario.ruleA 1]) 5000 1
  = Some (Scenario.ruleA 1)
  /\ Matches 5000 1 (Scenario.ruleA 1)
  /\ Preferred (Scenario.ruleA 1) (Scenario.ruleB 2).
Proof.
  assert (Hc : forall r,
             In r (approval_rules
                     (Scenario.rules_db [Scenario.ruleB 2; Scenario.ruleA 1])) ->
             Complete r).
  { intros r [<-|[<-|[]]]; split; discriminate. }
  destruct (getApplicableRule_selects
              (Scenario.rules_db [Scenario.ruleB 2; Scenario.ruleA 1]) 5000 1 Hc)
    as (Hsel & _).
  destruct (Hsel (Scenario.ruleA 1) eq_refl) as (_ & Hm & Hp).
  split; [reflexivity|]. split; [exact Hm|].
  apply Hp; [now left|].
  unfold Matches. simpl. repeat split.
  - exists 0. split; [reflexivity|lia].
  - right. exists 100000. split; [reflexivity|lia].
Defined.

End RuleSelectionSpec.

(** ** Decisions: what one call of [processApproval] does *)

Ltac tx_unfold :=
  unfold Tx.transaction, Tx.bind, Tx.query, Tx.exec, Tx.ret, Tx.throw in *.

Section ProcessApproval.
Import ApprovalService.

Lemma select_expense_set_status (db : DB) (expenseId : Z) (s : Status) :
  select_expense expenseId
    (with_expenses db (map (set_status expenseId s) (expenses db)))
  = map (set_status expenseId s) (select_expense expenseId db).
Proof.
  unfold select_expense. simpl.
  induction (expenses db) as [|x l IH]; simpl; [reflexivity|].
  unfold set_status at 1. destruct (e_id x =? expenseId) eqn:E; simpl; rewrite E.
  - now rewrite IH.
  - exact IH.
Qed.

(** The completion checks only read the store. *)
Lemma checkSequentialApproval_reads (expenseId : Z) (db : DB) :
  exists o, checkSequentialApproval expenseId db = inr (o, db).
Proof. unfold checkSequentialApproval. tx_unfold. eauto. Qed.

Lemma checkPercentageApproval_reads (expenseId : Z) (p : option Z) (db : DB) :
  exists o, checkPercentageApproval expenseId p db = inr (o, db).
Proof.
  unfold checkPercentageApproval. tx_unfold.
  destruct (count_approvals expenseId db). eauto.
Qed.

Lemma checkHybridApproval_reads (expenseId : Z) (p : option Z) (db : DB) :
  exists o, checkHybridApproval expenseId p db = inr (o, db).
Proof.
  unfold checkHybridApproval. tx_unfold.
  destruct (select_specific_approval expenseId db); [|eauto].
  apply checkPercentageApproval_reads.
Qed.

Lemma shouldUpdateExpenseStatus_reads (expenseId : Z) (action : Status) (db : DB) :
  match select_expense expenseId db with
  | [] => shouldUpdateExpenseStatus expenseId action db = inl Tx.TypeError
  | _ :: _ => exists o, shouldUpdateExpenseStatus expenseId action db = inr (o, db)
  end.
Proof.
  unfold shouldUpdateExpenseStatus. tx_unfold.
  destruct (select_expense expenseId db) as [|e l]; simpl; [reflexivity|].
  destruct (match e_approval_rule_id e with
            | Some ruleId => select_rule ruleId db
            | None => []
            end) as [|r rs]; [eauto|].
  destruct (Status_eqb action rejected); [eauto|].
  destruct (ar_rule_type r); eauto using checkSequentialApproval_reads,
    checkPercentageApproval_reads, checkHybridApproval_reads.
Qed.

(** One call, spelled out: the caller's pending rows are decided; the
    outcome of the completion check is returned; on [Update s] every expense
    row of that id gets status [s] and one notification is appended. *)
Lemma processApproval_eq (now : Z) (db : DB) (expenseId approverId : Z)
  (action : Status) (comments : option string) :
  let db1 := decided now db expenseId approverId action comments in
  processApproval now db expenseId approverId action comments =
  match select_expense expenseId db with
  | [] => (inl Tx.TypeError, db)
  | e :: _ =>
      match shouldUpdateExpenseStatus expenseId action db1 with
      | inl err => (inl err, db)
      | inr (NoUpdate, _) => (inr NoUpdate, db1)
      | inr (Update s, _) =>
          (inr (Update s), closed db1 expenseId (e_employee_id e) s)
      end
  end.
Proof.
  intros db1. unfold processApproval.
  pose proof (shouldUpdateExpenseStatus_reads expenseId action db1) as H.
  assert (Hsel : select_expense expenseId db1 = select_expense expenseId db)
    by reflexivity.
  rewrite Hsel in H. tx_unfold. fold (decided now db expenseId approverId action comments).
  fold db1.
  destruct (select_expense expenseId db) as [|e l] eqn:E.
  - now rewrite H.
  - destruct H as [o H]. rewrite H. destruct o as [|s]; [reflexivity|].
    rewrite select_expense_set_status. rewrite Hsel. simpl.
    unfold closed. f_equal. f_equal. f_equal. f_equal.
    unfold set_status. now destruct (e_id e =? expenseId).
Qed.

Lemma select_expense_hd (db : DB) (expenseId : Z) (e : Expense) :
  hd_error (select_expense expenseId db) = Some e ->
  exists l, select_expense expenseId db = e :: l /\ e_id e = expenseId.
Proof.
  destruct (select_expense expenseId db) as [|x l] eqn:E; [discriminate|].
  intros [= ->]. exists l. split; [reflexivity|].
  assert (H : In e (select_expense expenseId db)) by (rewrite E; now left).
  apply filter_In in H. now apply Z.eqb_eq.
Qed.

Lemma expense_status_closed (db : DB) (expenseId : Z) (u : option Z) (s : Status) :
  select_expense expenseId db <> [] ->
  expense_status (closed db expenseId u s) expenseId = Some s.
Proof.
  intros H. unfold expense_status, closed.
  change (select_expense expenseId (with_notifications ?d ?n))
    with (select_expense expenseId d).
  rewrite select_expense_set_status.
  destruct (select_expense expenseId db) as [|e l] eqn:E; [congruence|].
  assert (Hid : (e_id e =? expenseId) = true).
  { assert (Hin : In e (select_expense expenseId db)) by (rewrite E; now left).
    now apply filter_In in Hin. }
  simpl. unfold set_status. now rewrite Hid.
Qed.

(** Every status the completion check asks to write is Approved or Rejected. *)
Lemma shouldUpdateExpenseStatus_terminal (expenseId : Z) (action : Status)
  (db db' : DB) (s : Status) :
  shouldUpdateExpenseStatus expenseId action db = inr (Update s, db') ->
  terminal s.
Proof.
  unfold shouldUpdateExpenseStatus, checkHybridApproval,
    checkSequentialApproval, checkPercentageApproval, terminal.
  tx_unfold. unfold Tx.first_row.
  destruct (select_expense expenseId db) as [|e l]; [discriminate|]. simpl.
  destruct (match e_approval_rule_id e with
            | Some ruleId => select_rule ruleId db
            | None => []
            end) as [|r rs]; [discriminate|].
  destruct (Status_eqb action rejected); [intros [= <- _]; now right|].
  destruct (ar_rule_type r).
  - match goal with |- context [if ?b then _ else _] => destruct b end;
      [intros [= <- _]; now right|].
    match goal with |- context [if ?b then _ else _] => destruct b end;
      [intros [= <- _]; now left|discriminate].
  - destruct (count_approvals expenseId db).
    match goal with |- context [if ?b then _ else _] => destruct b end;
      [intros [= <- _]; now left|discriminate].
  - intros [= <- _]; now left.
  - destruct (select_specific_approval expenseId db);
      [|intros [= <- _]; now left].
    destruct (count_approvals expenseId db).
    match goal with |- context [if ?b then _ else _] => destruct b end;
      [intros [= <- _]; now left|discriminate].
Qed.

(** What does hold of the status whatever it was before: the only statuses
    [processApproval] writes to an expense are Approved and Rejected, never
    Pending; a call whose completion check reports no update (or that fails)
    leaves the expense table as it was. *)
Theorem processApproval_writes_terminal (now : Z) (db : DB)
  (expenseId approverId : Z) (action : Status) (comments : option string)
  (before : Status) :
  expense_status db expenseId = Some before ->
  match processApproval now db expenseId approverId action comments with
  | (inr (Update s), db') =>
      terminal s /\ expense_status db' expenseId = Some s
  | (_, db') =>
      expenses db' = expenses db /\ expense_status db' expenseId = Some before
  end.
Proof.
  intros Hs. rewrite processApproval_eq.
  destruct (select_expense expenseId db) as [|e l] eqn:E;
    [unfold expense_status in Hs; rewrite E in Hs; discriminate|].
  set (db1 := decided now db expenseId approverId action comments).
  destruct (shouldUpdateExpenseStatus expenseId action db1) as [err|[[|s] db2]] eqn:Eo.
  - now split.
  - now split.
  - split.
    + eapply shouldUpdateExpenseStatus_terminal; eassumption.
    + apply expense_status_closed.
      change (select_expense expenseId db1) with (select_expense expenseId db).
      rewrite E. discriminate.
Qed.

(** C7: a Rejected decision by an approver who holds a Pending ledger row,
    on an expense whose rule exists (of any rule type), returns
    [{update: true, status: 'rejected'}] and sets the expense to Rejected at
    once; the ledger rows of the other approvers are left as they are,
    Pending ones included. *)
Theorem rejection_is_a_veto (now : Z) (db : DB) (expenseId approverId : Z)
  (comments : option string) (row : ExpenseApproval) (e : Expense)
  (ruleId : Z) (r : ApprovalRule) :
  holds_pending db expenseId approverId row ->
  hd_error (select_expense expenseId db) = Some e ->
  e_approval_rule_id e = Some ruleId ->
  hd_error (select_rule ruleId db) = Some r ->
  exists db',
    processApproval now db expenseId approverId rejected comments
      = (inr (Update rejected), db')
    /\ expense_status db' expenseId = Some rejected
    /\ (forall x, In x (expenses db') -> e_id x = expenseId ->
                  e_status x = rejected)
    /\ (forall ea, In ea (expense_approvals db) ->
                   ea_approver_id ea <> Some approverId ->
                   In ea (expense_approvals db')).
Proof.
  intros _ He Hrule Hr.
  destruct (select_expense_hd _ _ _ He) as (l & El & Hid).
  rewrite processApproval_eq, El.
  set (db1 := decided now db expenseId approverId rejected comments).
  assert (Ho : shouldUpdateExpenseStatus expenseId rejected db1
               = inr (Update rejected, db1)).
  { unfold shouldUpdateExpenseStatus. tx_unfold.
    change (select_expense expenseId db1) with (select_expense expenseId db).
    rewrite El. simpl. rewrite Hrule.
    change (select_rule ruleId db1) with (select_rule ruleId db).
    destruct (select_rule ruleId db); [discriminate|reflexivity]. }
  rewrite Ho. eexists. split; [reflexivity|]. split; [|split].
  - apply expense_status_closed.
    change (select_expense expenseId db1) with (select_expense expenseId db).
    rewrite El. discriminate.
  - intros x Hx Hxid. simpl in Hx. apply in_map_iff in Hx.
    destruct Hx as (y & <- & Hy). unfold set_status in *.
    destruct (e_id y =? expenseId) eqn:Ey; [reflexivity|].
    simpl in Hxid. apply Z.eqb_neq in Ey. contradiction.
  - intros ea Hin Hne. simpl. apply in_map_iff. exists ea. split; [|assumption].
    unfold decide_row, Sql.eq_param.
    destruct (ea_approver_id ea) as [a|]; [|now rewrite andb_false_r].
    destruct (a =? approverId) eqn:Ea;
      [apply Z.eqb_eq in Ea; congruence|].
    now rewrite andb_false_r.
Qed.

(** C1: the status of an expense is to change only from Pending to a
    terminal status, once, and a decision arriving afterwards is to leave it
    unchanged.  [processApproval] does not look at the current status: under
    a Percentage rule at 50% with the two approvers 101 and 102, the expense
    is Rejected once 101 has rejected (one notification sent); 102 still
    holds a Pending row, the route accepts 102's approval, 1 of 2 rows is
    50%, and the expense goes from Rejected to Approved with a second
    notification. *)
Lemma approval_reopens_rejected_expense :
  expense_status (Scenario.submitted (Scenario.percentage_company 50 2)) 1
  = Some pending
  /\ Scenario.respond (Scenario.submitted (Scenario.percentage_company 50 2))
       101 rejected
     = ApprovalsRoute.Processed true (Some rejected)
  /\ expense_status Scenario.vetoed 1 = Some rejected
  /\ List.length (notifications Scenario.vetoed) = 1%nat
  /\ map (fun ea => (ea_approver_id ea, ea_status ea))
         (ApprovalService.ledger_of 1 Scenario.vetoed)
     = [(Some 101, rejected); (Some 102, pending)]
  /\ Scenario.respond Scenario.vetoed 102 approved
     = ApprovalsRoute.Processed true (Some approved)
  /\ expense_status (Scenario.decide Scenario.vetoed 102 approved) 1
     = Some approved
  /\ List.length (notifications (Scenario.decide Scenario.vetoed 102 approved))
     = 2%nat.
Proof. vm_compute. repeat split. Qed.

(** The theorem at work on the second approver's decision in the scenario
    above. *)
Lemma processApproval_writes_terminal_witness :
  match processApproval 0 Scenario.vetoed 1 102 approved None with
  | (inr (Update s), db') => terminal s /\ expense_status db' 1 = Some s
  | (_, db') =>
      expenses db' = expenses Scenario.vetoed
      /\ expense_status db' 1 = Some rejected
  end.
Proof.
  apply (processApproval_writes_terminal 0 Scenario.vetoed 1 102 approved None
           rejected).
  reflexivity.
Defined.

(** The veto at work: 60% of five approvers, the first one rejects. *)
Lemma rejection_is_a_veto_witness :
  exists db',
    processApproval 0 (Scenario.submitted (Scenario.percentage_company 60 5))
      1 101 rejected None = (inr (Update rejected), db')
    /\ expense_status db' 1 = Some rejected.
Proof.
  destruct (rejection_is_a_veto 0
              (Scenario.submitted (Scenario.percentage_company 60 5)) 1 101 None
              (pending_row 1 (Some 101) 1) Scenario.expense1 1
              (Scenario.rule percentage (Some 60) None))
    as (db' & H1 & H2 & _).
  - unfold holds_pending. repeat split. vm_compute. now left.
  - reflexivity.
  - reflexivity.
  - reflexivity.
  - exists db'. now split.
Defined.

End ProcessApproval.

(** ** The decision route *)

Section Route.
Import ApprovalService ApprovalsRoute.

Lemma flat_map_nil {A B : Type} (f : A -> list B) (l : list A) :
  flat_map f l = [] <-> forall x, In x l -> f x = [].
Proof.
  induction l as [|a l IH]; simpl.
  - split; [intros _ x []|reflexivity].
  - split.
    + intros H x [<-|Hx].
      * now destruct (app_eq_nil _ _ H).
      * apply IH; [|assumption]. now destruct (app_eq_nil _ _ H).
    + intros H. rewrite (H a) by now left. simpl. apply IH. auto.
Qed.

Lemma flat_map_cons_inv {A B : Type} (f : A -> list B) (l : list A) :
  flat_map f l <> [] <-> exists x, In x l /\ f x <> [].
Proof.
  split.
  - intros H. induction l as [|a l IH]; simpl in H; [congruence|].
    destruct (f a) eqn:E.
    + destruct (IH H) as (x & Hx & Hf). exists x. split; [now right|assumption].
    + exists a. split; [now left|]. rewrite E. discriminate.
  - intros (x & Hx & Hf) Hnil. apply Hf.
    now apply (proj1 (flat_map_nil f l) Hnil).
Qed.

Lemma pendingApproval_nil (db : DB) (user : AuthUser) (expenseId : Z) :
  (forall row, ~ holds_pending db expenseId (id user) row) ->
  pendingApproval db user expenseId = [].
Proof.
  intros H. unfold pendingApproval. apply flat_map_nil. intros ea Hea.
  apply flat_map_nil. intros e He.
  destruct (_ && _) eqn:E; [|reflexivity]. exfalso.
  rewrite !andb_true_iff in E. destruct E as [[[[_ E1] E2] E3] _].
  apply (H ea). unfold holds_pending, Sql.eq_param in *.
  destruct (ea_approver_id ea) as [a|]; [|discriminate].
  apply Z.eqb_eq in E1, E2. subst a.
  destruct (ea_status ea); try discriminate. auto.
Qed.

Lemma pendingApproval_cons (db : DB) (user : AuthUser) (expenseId : Z)
  (row : ExpenseApproval) :
  holds_pending db expenseId (id user) row ->
  in_company db expenseId user ->
  pendingApproval db user expenseId <> [].
Proof.
  intros (Hin & Hid & Ha & Hs) (e & c & He & Heid & Hc & Hu) Hnil.
  unfold pendingApproval in Hnil.
  rewrite flat_map_nil in Hnil. specialize (Hnil row Hin).
  rewrite flat_map_nil in Hnil. specialize (Hnil e He).
  rewrite Hid, Heid, Ha, Hs, Hc, Hu in Hnil. simpl in Hnil.
  rewrite !Z.eqb_refl in Hnil. discriminate.
Qed.

Lemma pendingApproval_in_company (db : DB) (user : AuthUser) (expenseId : Z) :
  pendingApproval db user expenseId <> [] -> in_company db expenseId user.
Proof.
  unfold pendingApproval. intros H.
  apply flat_map_cons_inv in H. destruct H as (ea & _ & H).
  apply flat_map_cons_inv in H. destruct H as (e & He & H).
  destruct (_ && _) eqn:E; [|congruence].
  rewrite !andb_true_iff in E. destruct E as [[[[E0 E1] _] _] E4].
  apply Z.eqb_eq in E0, E1. unfold Sql.eq_null in E4.
  destruct (e_company_id e) as [c|] eqn:Hc; [|discriminate].
  destruct (company_id user) as [c'|] eqn:Hu; [|discriminate].
  apply Z.eqb_eq in E4. subst c'.
  exists e, c. repeat split; congruence.
Qed.

Lemma pendingApproval_expense (db : DB) (user : AuthUser) (expenseId : Z) :
  pendingApproval db user expenseId <> [] ->
  select_expense expenseId db <> [].
Proof.
  intros H Hsel. apply H. unfold pendingApproval.
  apply flat_map_nil. intros ea _. apply flat_map_nil. intros e He.
  destruct (_ && _) eqn:E; [|reflexivity]. exfalso.
  rewrite !andb_true_iff in E. destruct E as [[[[E0 E1] _] _] _].
  apply Z.eqb_eq in E0, E1.
  assert (Hx : In e (select_expense expenseId db)).
  { apply filter_In. split; [assumption|]. apply Z.eqb_eq. congruence. }
  rewrite Hsel in Hx. destruct Hx.
Qed.

(** A call that does not throw leaves the ledger as the UPDATE made it. *)
Lemma processApproval_ledger (now : Z) (db : DB) (expenseId approverId : Z)
  (action : Status) (comments : option string) :
  select_expense expenseId db <> [] ->
  exists o db',
    processApproval now db expenseId approverId action comments = (inr o, db')
    /\ expense_approvals db'
       = map (decide_row now expenseId approverId action comments)
             (expense_approvals db).
Proof.
  intros Hsel. rewrite processApproval_eq.
  pose proof (shouldUpdateExpenseStatus_reads expenseId action
                (decided now db expenseId approverId action comments)) as H.
  change (select_expense expenseId (decided ?n ?d ?e ?a ?x ?c))
    with (select_expense expenseId d) in H.
  destruct (select_expense expenseId db) as [|e l]; [congruence|].
  destruct H as [o H]. rewrite H. exists o.
  destruct o; eexists; split; reflexivity.
Qed.

Lemma decided_rows_not_pending (now : Z) (l : list ExpenseApproval)
  (expenseId approverId : Z) (action : Status) (comments : option string)
  (ea : ExpenseApproval) :
  action <> pending ->
  In ea (map (decide_row now expenseId approverId action comments) l) ->
  ea_expense_id ea = expenseId ->
  ea_approver_id ea = Some approverId ->
  ea_status ea <> pending.
Proof.
  intros Hact Hin Hid Ha. apply in_map_iff in Hin.
  destruct Hin as (x & <- & _). unfold decide_row in *.
  destruct (_ && _) eqn:E; [exact Hact|].
  rewrite Hid, Ha in E. simpl in E. rewrite !Z.eqb_refl in E. simpl in E.
  now destruct (ea_status x).
Qed.

(** C8 (as amended): a decision with a valid body succeeds when the caller
    holds at least one Pending ledger row of the expense (and the expense is
    one of the caller's company) and is refused with 404 'No pending approval
    found', the store untouched, when the caller holds none.  A successful
    call decides every Pending row the caller held, so a second call by the
    same approver is refused and leaves the store, and with it the expense
    status, as the first call left it. *)
Theorem process_requires_pending_row (now : Z) (db : DB) (user : AuthUser)
  (expenseId : Z) (action : Status) (comments : option string) :
  approvalActionSchema action comments = true ->
  ((forall row, ~ holds_pending db expenseId (id user) row) ->
   process now db user expenseId action comments = (NoPendingApproval, db))
  /\ (~ in_company db expenseId user ->
      process now db user expenseId action comments = (NoPendingApproval, db))
  /\ (forall row,
        holds_pending db expenseId (id user) row ->
        in_company db expenseId user ->
        exists o db',
          processApproval now db expenseId (id user) action comments
            = (inr o, db')
          /\ process now db user expenseId action comments
             = (Processed (update o) (status o), db')
          /\ (forall row', ~ holds_pending db' expenseId (id user) row')
          /\ forall now' action' comments',
               approvalActionSchema action' comments' = true ->
               process now' db' user expenseId action' comments'
                 = (NoPendingApproval, db')).
Proof.
  intros Hv. split; [|split].
  - intros Hnone. unfold process. rewrite Hv. simpl.
    now rewrite pendingApproval_nil.
  - intros Hout. unfold process. rewrite Hv. simpl.
    destruct (pendingApproval db user expenseId) eqn:E; [reflexivity|].
    exfalso. apply Hout, pendingApproval_in_company. rewrite E. discriminate.
  - intros row Hrow Hco.
    pose proof (pendingApproval_cons _ _ _ _ Hrow Hco) as Hp.
    pose proof (pendingApproval_expense _ _ _ Hp) as Hsel.
    destruct (processApproval_ledger now db expenseId (id user) action comments
                Hsel) as (o & db' & Hpa & Hl).
    exists o, db'. split; [assumption|].
    assert (Hnone : forall row', ~ holds_pending db' expenseId (id user) row').
    { intros row' (Hin & Hid & Ha & Hs). rewrite Hl in Hin.
      eapply decided_rows_not_pending; eauto.
      unfold approvalActionSchema in Hv. intros ->. discriminate. }
    split; [|split; [assumption|]].
    + unfold process. rewrite Hv. simpl.
      destruct (pendingApproval db user expenseId); [congruence|].
      now rewrite Hpa.
    + intros now' action' comments' Hv'. unfold process. rewrite Hv'. simpl.
      now rewrite pendingApproval_nil.
Qed.

(** C8, the claim as stated fails: under a Hybrid rule whose specific
    approver is also a manager, that approver holds two Pending rows of the
    expense, and the decision is accepted all the same. *)
Lemma process_accepts_two_pending_rows :
  List.length
    (pendingApproval (Scenario.submitted Scenario.hybrid_manager_company)
       {| id := 101; company_id := Some 1 |} 1) = 2%nat
  /\ Scenario.respond (Scenario.submitted Scenario.hybrid_manager_company)
       101 approved
     = Processed true (Some approved).
Proof. vm_compute. split; reflexivity. Qed.

(** The theorem at work: approver 101 has decided and calls again. *)
Lemma process_requires_pending_row_witness :
  approvalActionSchema approved None = true
  /\ process 0 (Scenario.decide (Scenario.submitted (Scenario.percentage_company 60 5))
                  101 approved)
       {| id := 101; company_id := Some 1 |} 1 approved None
     = (NoPendingApproval,
        Scenario.decide (Scenario.submitted (Scenario.percentage_company 60 5))
          101 approved).
Proof.
  split; [reflexivity|].
  apply (proj1 (process_requires_pending_row 0
           (Scenario.decide (Scenario.submitted (Scenario.percentage_company 60 5))
              101 approved)
           {| id := 101; company_id := Some 1 |} 1 approved None eq_refl)).
  intros row (Hin & Hid & Ha & Hs). vm_compute in Hin.
  repeat (destruct Hin as [<-|Hin]; [discriminate|]). destruct Hin.
Defined.

End Route.

(** ** Workflow construction *)

Section Workflow.
Import ApprovalService.

Lemma step_approver_eq (db : DB) (expenseId : Z) (e : Expense) (l : list Expense)
  (step : ApprovalRuleStep) :
  select_expense expenseId db = e :: l ->
  step_approver expenseId step db = inr (approver_of db e step, db).
Proof.
  intros E. unfold step_approver, approver_of, manager_of.
  destruct (ars_approver_role step) as [[| |]|]; try reflexivity.
  tx_unfold. now rewrite E.
Qed.

Lemma for_each_steps (expenseId : Z) (e : Expense) (l : list Expense)
  (steps : list ApprovalRuleStep) (db : DB) :
  select_expense expenseId db = e :: l ->
  e_id e = expenseId ->
  Tx.for_each steps (fun step =>
    Tx.bind (step_approver expenseId step) (fun approverId =>
      if Js.truthy approverId
      then insert_approval expenseId approverId (ars_step_order step)
      else Tx.ret tt)) db
  = inr (tt, with_expense_approvals db
               (expense_approvals db ++ sequential_rows db e steps)).
Proof.
  intros E Hid. subst expenseId. revert db E.
  induction steps as [|s steps IH]; intros db E.
  - simpl. unfold Tx.ret, sequential_rows. simpl. rewrite app_nil_r.
    now destruct db.
  - simpl. unfold Tx.bind at 1 2. rewrite (step_approver_eq _ _ _ _ _ E).
    unfold sequential_rows at 1. simpl filter.
    destruct (Js.truthy (approver_of db e s)) eqn:Et.
    + unfold insert_approval, Tx.exec.
      rewrite IH by exact E.
      change (sequential_rows (with_expense_approvals db ?x) e steps)
        with (sequential_rows db e steps).
      unfold sequential_rows. simpl. rewrite <- app_assoc. reflexivity.
    + unfold Tx.ret. now rewrite IH by exact E.
Qed.

Lemma step_before_asym (a b : ApprovalRuleStep) :
  step_before a b = true -> step_before b a = false.
Proof. unfold step_before. rewrite Z.ltb_lt, Z.ltb_ge. lia. Qed.

Lemma select_steps_Sorted (ruleId : Z) (db : DB) :
  Sorted (fun a b => ars_step_order a <= ars_step_order b)
         (select_steps ruleId db).
Proof.
  unfold select_steps.
  pose proof (order_by_Sorted step_before step_before_asym
    (filter (fun s => ars_rule_id s =? ruleId) (approval_rule_steps db))) as H.
  induction H as [|x l Hs IH Hd]; constructor; [assumption|].
  destruct Hd as [|y l Hxy]; constructor.
  unfold step_before in Hxy. now apply Z.ltb_ge in Hxy.
Qed.

(** C3 (as amended): for an existing expense, [createSequentialApprovals]
    succeeds and appends to the ledger exactly one Pending row per step of
    the rule that resolves to an approver, each with the step's stepOrder,
    the steps taken by ascending stepOrder.  A Manager step resolves to the
    direct manager of the expense's employee, read when the workflow is
    built; a SpecificUser step and an Admin step both resolve to
    [step.approver_id] (no admin account is looked up); a step whose approver
    is unset creates no row and the rows of the other steps are created all
    the same. *)
Theorem createSequentialApprovals_rows (db : DB) (expenseId ruleId : Z)
  (e : Expense) :
  hd_error (select_expense expenseId db) = Some e ->
  let steps := select_steps ruleId db in
  createSequentialApprovals expenseId ruleId db
    = inr (tt, with_expense_approvals db
                 (expense_approvals db
                  ++ map (fun s => pending_row expenseId (approver_of db e s)
                                     (ars_step_order s))
                         (filter (fun s => Js.truthy (approver_of db e s)) steps)))
  /\ Sorted (fun a b => ars_step_order a <= ars_step_order b) steps
  /\ Permutation steps
       (filter (fun s => ars_rule_id s =? ruleId) (approval_rule_steps db))
  /\ (forall s, ars_approver_role s = Some ApproverRole.manager ->
                approver_of db e s = manager_of db e)
  /\ (forall s, ars_approver_role s = Some ApproverRole.specific_user ->
                approver_of db e s = ars_approver_id s)
  /\ (forall s, ars_approver_role s = Some ApproverRole.admin ->
                approver_of db e s = ars_approver_id s).
Proof.
  intros He steps.
  destruct (select_expense_hd _ _ _ He) as (l & El & Hid).
  split; [|split; [|split; [|repeat split]]].
  - unfold createSequentialApprovals. unfold Tx.bind at 1. unfold Tx.query.
    fold steps. rewrite (for_each_steps expenseId e l steps db El Hid).
    unfold sequential_rows. now rewrite Hid.
  - apply select_steps_Sorted.
  - apply order_by_Permutation.
  - intros s Hs. unfold approver_of. now rewrite Hs.
  - intros s Hs. unfold approver_of. now rewrite Hs.
  - intros s Hs. unfold approver_of. now rewrite Hs.
Qed.

(** C3, the claim as stated fails: for the rule "manager, then admin" whose
    admin step carries no approver id, in a company that has the active
    admin 4, the only ledger row built is the manager's. *)
Lemma admin_step_creates_no_row :
  ApprovalService.createApprovalWorkflow Scenario.manager_then_admin 1 1
  = (inr tt,
     with_expense_approvals Scenario.manager_then_admin
       [pending_row 1 (Some 101) 1])
  /\ select_approvers (Some 1) Scenario.manager_then_admin
     = [Scenario.user 101 UserRole.manager None;
        Scenario.user 4 UserRole.admin None].
Proof. vm_compute. split; reflexivity. Qed.

(** The theorem at work on the rule "manager, then admin". *)
Lemma createSequentialApprovals_rows_witness :
  createSequentialApprovals 1 1 Scenario.manager_then_admin
  = inr (tt, with_expense_approvals Scenario.manager_then_admin
               [pending_row 1 (Some 101) 1]).
Proof.
  destruct (createSequentialApprovals_rows Scenario.manager_then_admin 1 1
              Scenario.expense1 eq_refl) as [H _].
  rewrite H. reflexivity.
Defined.

(** C10 (as amended): [createApprovalWorkflow] throws 'Approval rule not
    found' when no rule has the given id, and rolls back; for a Sequential
    rule that has no steps it throws nothing: it commits with no ledger row
    created. *)
Theorem createApprovalWorkflow_without_steps (db : DB) (expenseId ruleId : Z) :
  (select_rule ruleId db = [] ->
   createApprovalWorkflow db expenseId ruleId = (inl Tx.RuleNotFound, db))
  /\ (forall r,
        hd_error (select_rule ruleId db) = Some r ->
        ar_rule_type r = sequential ->
        (forall s, In s (approval_rule_steps db) -> ars_rule_id s <> ruleId) ->
        createApprovalWorkflow db expenseId ruleId = (inr tt, db)).
Proof.
  split.
  - intros E. unfold createApprovalWorkflow. tx_unfold. now rewrite E.
  - intros r Hr Ht Hnone. unfold createApprovalWorkflow. tx_unfold.
    destruct (select_rule ruleId db) as [|r' rs]; [discriminate|].
    injection Hr as ->. rewrite Ht.
    unfold createSequentialApprovals. tx_unfold.
    assert (E : select_steps ruleId db = []).
    { unfold select_steps.
      replace (filter (fun s => ars_rule_id s =? ruleId) (approval_rule_steps db))
        with (@nil ApprovalRuleStep); [reflexivity|].
      symmetry. induction (approval_rule_steps db) as [|s l IH]; [reflexivity|].
      simpl. destruct (ars_rule_id s =? ruleId) eqn:Es.
      - apply Z.eqb_eq in Es. exfalso. apply (Hnone s); [now left|assumption].
      - apply IH. intros x Hx. apply Hnone. now right. }
    rewrite E. simpl. now destruct db.
Qed.

(** C10, the claim as stated fails: the Sequential rule without steps builds
    its workflow without any error, and without any ledger row. *)
Lemma no_steps_is_no_error :
  ApprovalService.createApprovalWorkflow Scenario.no_steps 1 1
  = (inr tt, Scenario.no_steps)
  /\ expense_approvals Scenario.no_steps = [].
Proof. vm_compute. split; reflexivity. Qed.

(** The theorem at work on the rule without steps. *)
Lemma createApprovalWorkflow_without_steps_witness :
  createApprovalWorkflow Scenario.no_steps 1 1 = (inr tt, Scenario.no_steps).
Proof.
  apply (proj2 (createApprovalWorkflow_without_steps Scenario.no_steps 1 1)
           (Scenario.rule sequential None None) eq_refl eq_refl).
  intros s [].
Defined.

End Workflow.

(** ** The Percentage predicate *)

Section Percentage.
Import ApprovalService.

Lemma range_In (lo : Z) (n : nat) (x : Z) :
  lo <= x < lo + Z.of_nat n -> In x (range lo n).
Proof.
  intros H. unfold range. apply in_map_iff.
  exists (Z.to_nat (x - lo)). split; [lia|]. apply in_seq. lia.
Qed.

Lemma agree_upto_49 : agree_upto 49 = true.
Proof. vm_compute. reflexivity. Qed.

(** With fewer than 50 ledger rows the computed percentage decides exactly as
    integer arithmetic does. *)
Lemma approvalPercentage_exact_below_50 (total approved_ required : Z) :
  1 <= total <= 49 -> 0 <= approved_ <= total -> 1 <= required <= 100 ->
  Js.ge_nullable (approvalPercentage approved_ total) (Some required)
  = (required * total <=? 100 * approved_).
Proof.
  intros Ht Ha Hr. pose proof agree_upto_49 as H. unfold agree_upto in H.
  rewrite forallb_forall in H.
  specialize (H total (range_In 1 49 total ltac:(lia))).
  rewrite forallb_forall in H.
  specialize (H approved_
                (range_In 0 (S (Z.to_nat total)) approved_ ltac:(lia))).
  rewrite forallb_forall in H.
  specialize (H required (range_In 1 100 required ltac:(lia))).
  unfold agrees in H. now apply eqb_prop in H.
Qed.

(** The scenario of the specification: 60% of five approvers is reached by
    the third approval and not before. *)
Lemma percentage_60_of_5 :
  let db := Scenario.submitted (Scenario.percentage_company 60 5) in
  expense_status (Scenario.decide_all db [101] approved) 1 = Some pending
  /\ expense_status (Scenario.decide_all db [101; 102] approved) 1 = Some pending
  /\ Scenario.respond (Scenario.decide_all db [101; 102] approved) 103 approved
     = ApprovalsRoute.Processed true (Some approved)
  /\ expense_status (Scenario.decide_all db [101; 102; 103] approved) 1
     = Some approved.
Proof. vm_compute. repeat split. Qed.

(** C4: at 58% required and 50 ledger rows, the 29th approval makes
    29 / 50 = 58%, yet [(29 / 50) * 100] is 57.99999999999999 in binary64:
    the check returns [{update: false}] and the expense stays Pending until
    the 30th approval. *)
Lemma percentage_58_of_50 :
  count_approvals 1 (Scenario.decide_all Scenario.fifty_managers
                       (Scenario.manager_ids 29) approved) = (50, 29)
  /\ 58 * 50 <= 100 * 29
  /\ PrimFloat.ltb (approvalPercentage 29 50) (Js.Number 58) = true
  /\ Scenario.respond (Scenario.decide_all Scenario.fifty_managers
                         (Scenario.manager_ids 28) approved) 129 approved
     = ApprovalsRoute.Processed false None
  /\ expense_status (Scenario.decide_all Scenario.fifty_managers
                       (Scenario.manager_ids 29) approved) 1 = Some pending
  /\ expense_status (Scenario.decide_all Scenario.fifty_managers
                       (Scenario.manager_ids 30) approved) 1 = Some approved.
Proof. vm_compute. repeat split; discriminate. Qed.

End Percentage.

(** ** The Hybrid predicate *)

Section Hybrid.
Import ApprovalService.

(** What the join of [checkHybridApproval] finds: an Approved ledger row, of
    any expense, whose approver is the specific approver of the rule of this
    expense. *)
Lemma select_specific_approval_spec (expenseId : Z) (db : DB) :
  select_specific_approval expenseId db <> [] <->
  exists ea ar e a,
    In ea (expense_approvals db) /\ In ar (approval_rules db)
    /\ In e (expenses db)
    /\ ar_specific_approver_id ar = Some a /\ ea_approver_id ea = Some a
    /\ e_approval_rule_id e = Some (ar_id ar)
    /\ e_id e = expenseId /\ ea_status ea = approved.
Proof.
  unfold select_specific_approval. rewrite flat_map_cons_inv. split.
  - intros (ea & Hea & H). apply flat_map_cons_inv in H.
    destruct H as (ar & Har & H). apply flat_map_cons_inv in H.
    destruct H as (e & He & H).
    destruct (_ && _) eqn:E; [|congruence].
    rewrite !andb_true_iff in E. destruct E as [[[E1 E2] E3] E4].
    unfold Sql.eq_null, Sql.eq_param in *.
    destruct (ar_specific_approver_id ar) as [a|] eqn:Hs; [|discriminate].
    destruct (ea_approver_id ea) as [a'|] eqn:Ha; [|discriminate].
    destruct (e_approval_rule_id e) as [rid|] eqn:Hr; [|discriminate].
    apply Z.eqb_eq in E1, E2, E3. subst.
    exists ea, ar, e, a'. repeat split; try assumption.
    now destruct (ea_status ea).
  - intros (ea & ar & e & a & Hea & Har & He & Hs & Ha & Hr & Hid & Hst).
    exists ea. split; [assumption|]. apply flat_map_cons_inv.
    exists ar. split; [assumption|]. apply flat_map_cons_inv.
    exists e. split; [assumption|].
    rewrite Hs, Ha, Hr, Hid, Hst. simpl. rewrite !Z.eqb_refl. discriminate.
Qed.

Lemma NoDup_map_eq {A : Type} (f : A -> Z) (l : list A) (x y : A) :
  NoDup (map f l) -> In x l -> In y l -> f x = f y -> x = y.
Proof.
  induction l as [|a l IH]; simpl; [intros _ []|].
  intros Hnd [->|Hx] [->|Hy] E; try reflexivity.
  - inversion Hnd as [|? ? Hn _]. exfalso. apply Hn. rewrite E.
    now apply in_map.
  - inversion Hnd as [|? ? Hn _]. exfalso. apply Hn. rewrite <- E.
    now apply in_map.
  - inversion Hnd. now apply IH.
Qed.

Lemma checkPercentageApproval_eq (expenseId : Z) (required : option Z) (db : DB) :
  checkPercentageApproval expenseId required db
  = inr (if percentage_reached db expenseId required
         then Update approved else NoUpdate, db).
Proof. reflexivity. Qed.

(** C5: a Hybrid expense is to be approved exactly when the dedicated
    specific-approver row is Approved or the percentage predicate over the
    remaining rows is satisfied.  The join of [checkHybridApproval] does not
    tie the ledger row to the expense ([FROM expense_approvals ea JOIN
    approval_rules ar ON ar.specific_approver_id = ea.approver_id JOIN
    expenses e ON e.approval_rule_id = ar.id WHERE e.id = $1]): an Approved
    row of the specific approver on any expense satisfies it.  Company of
    four managers, Hybrid rule at 50% with manager 101 as specific approver,
    two expenses; 101 has approved expense 2.  On expense 1 nobody has
    decided.  Manager 102 approves expense 1: both rows of 101 on expense 1
    are still Pending, one row of five is Approved (one of three without the
    rows of 101), neither half of the predicate holds, and the expense is
    closed as Approved. *)
Theorem hybrid_closes_on_another_expense :
  expense_status Scenario.hybrid_two_expenses 1 = Some pending
  /\ map (fun ea => (ea_approver_id ea, ea_status ea))
         (ledger_of 1 Scenario.hybrid_two_expenses)
     = [(Some 101, pending); (Some 102, pending); (Some 103, pending);
        (Some 104, pending); (Some 101, pending)]
  /\ map (fun ea => (ea_approver_id ea, ea_status ea))
         (ledger_of 1 (decided 0 Scenario.hybrid_two_expenses 1 102 approved None))
     = [(Some 101, pending); (Some 102, approved); (Some 103, pending);
        (Some 104, pending); (Some 101, pending)]
  /\ Spec.hybrid_satisfied 50 101
       (ledger_of 1 (decided 0 Scenario.hybrid_two_expenses 1 102 approved None))
     = false
  /\ Spec.percentage_satisfied 50
       (ledger_of 1 (decided 0 Scenario.hybrid_two_expenses 1 102 approved None))
     = false
  /\ checkHybridApproval 1 (Some 50)
       (decided 0 Scenario.hybrid_two_expenses 1 102 approved None)
     = inr (Update approved,
            decided 0 Scenario.hybrid_two_expenses 1 102 approved None)
  /\ Scenario.respond Scenario.hybrid_two_expenses 102 approved
     = ApprovalsRoute.Processed true (Some approved)
  /\ expense_status (Scenario.decide Scenario.hybrid_two_expenses 102 approved) 1
     = Some approved.
Proof. vm_compute. repeat split. Qed.

(** The slip in general: whenever the specific approver of the expense's
    rule holds an Approved row, of whatever expense, the check approves. *)
Lemma checkHybridApproval_any_expense (db : DB) (expenseId : Z)
  (required : option Z) (ea : ExpenseApproval) (ar : ApprovalRule)
  (e : Expense) (a : Z) :
  In e (expenses db) -> e_id e = expenseId ->
  In ar (approval_rules db) -> e_approval_rule_id e = Some (ar_id ar) ->
  ar_specific_approver_id ar = Some a ->
  In ea (expense_approvals db) ->
  ea_approver_id ea = Some a -> ea_status ea = approved ->
  checkHybridApproval expenseId required db = inr (Update approved, db).
Proof.
  intros He Hid Har Hr Hs Hea Ha Hst.
  assert (Hne : select_specific_approval expenseId db <> []).
  { apply select_specific_approval_spec. exists ea, ar, e, a.
    repeat split; assumption. }
  unfold checkHybridApproval. tx_unfold.
  destruct (select_specific_approval expenseId db); [congruence|reflexivity].
Qed.

(** A further difference from the predicate of the specification: the
    fallback counts every row of the expense.  With 50% required, four
    percentage rows and the specific approver's row, two of the percentage
    approvers (102 and 103) have approved, which is 2 / 4 = 50% of the
    percentage rows, and the expense is still Pending, because the code
    counts 2 of 5. *)
Lemma hybrid_counts_the_specific_row :
  count_approvals 1
    (Scenario.decide_all (Scenario.submitted Scenario.hybrid_manager_company)
       [102; 103] approved) = (5, 2)
  /\ 50 * 4 <= 100 * 2
  /\ Scenario.respond
       (Scenario.decide (Scenario.submitted Scenario.hybrid_manager_company)
          102 approved) 103 approved
     = ApprovalsRoute.Processed false None
  /\ expense_status
       (Scenario.decide_all (Scenario.submitted Scenario.hybrid_manager_company)
          [102; 103] approved) 1 = Some pending.
Proof. vm_compute. repeat split; discriminate. Qed.

End Hybrid.

(** ** The Sequential predicate *)

Section Sequential.
Import ApprovalService.

Lemma forallb_Permutation {A : Type} (f : A -> bool) (l l' : list A) :
  Permutation l l' -> forallb f l = forallb f l'.
Proof.
  induction 1; simpl; try congruence.
  now rewrite !andb_assoc, (andb_comm (f y)).
Qed.

Lemma existsb_Permutation {A : Type} (f : A -> bool) (l l' : list A) :
  Permutation l l' -> existsb f l = existsb f l'.
Proof.
  induction 1; simpl; try congruence.
  now rewrite !orb_assoc, (orb_comm (f y)).
Qed.

(** The check reads the ledger rows of the expense; their order plays no
    part. *)
Lemma checkSequentialApproval_eq (expenseId : Z) (db : DB) :
  checkSequentialApproval expenseId db
  = inr (if existsb (fun ea => Status_eqb (ea_status ea) rejected)
                    (ledger_of expenseId db)
         then Update rejected
         else if forallb (fun ea => Status_eqb (ea_status ea) approved)
                         (ledger_of expenseId db)
              then Update approved
              else NoUpdate, db).
Proof.
  unfold checkSequentialApproval. tx_unfold.
  rewrite (existsb_Permutation _ _ _ (order_by_Permutation _ _)).
  now rewrite (forallb_Permutation _ _ _ (order_by_Permutation _ _)).
Qed.

Lemma Status_eqb_eq (a b : Status) : Status_eqb a b = true <-> a = b.
Proof. destruct a, b; simpl; split; congruence. Qed.

Lemma checkSequentialApproval_approved (expenseId : Z) (db : DB) :
  checkSequentialApproval expenseId db = inr (Update approved, db)
  <-> forall ea, In ea (ledger_of expenseId db) -> ea_status ea = approved.
Proof.
  rewrite checkSequentialApproval_eq.
  set (l := ledger_of expenseId db).
  destruct (forallb (fun ea => Status_eqb (ea_status ea) approved) l) eqn:Ea.
  - rewrite forallb_forall in Ea.
    assert (Er : existsb (fun ea => Status_eqb (ea_status ea) rejected) l = false).
    { destruct (existsb _ l) eqn:Er; [|reflexivity].
      apply existsb_exists in Er. destruct Er as (x & Hx & Hr).
      apply Ea in Hx. apply Status_eqb_eq in Hx, Hr. congruence. }
    rewrite Er. split; [|reflexivity].
    intros _ ea Hin. now apply Status_eqb_eq, Ea.
  - split.
    + destruct (existsb _ l); discriminate.
    + intros H. exfalso.
      assert (Ht : forallb (fun ea => Status_eqb (ea_status ea) approved) l = true).
      { apply forallb_forall. intros x Hx. now apply Status_eqb_eq, H. }
      congruence.
Qed.

Lemma ledger_of_decided (now : Z) (db : DB) (expenseId approverId : Z)
  (action : Status) (comments : option string) :
  ledger_of expenseId (decided now db expenseId approverId action comments)
  = map (decide_row now expenseId approverId action comments)
        (ledger_of expenseId db).
Proof.
  unfold ledger_of, decided. simpl.
  induction (expense_approvals db) as [|x l IH]; simpl; [reflexivity|].
  assert (E : ea_expense_id (decide_row now expenseId approverId action comments x)
              = ea_expense_id x).
  { unfold decide_row. now destruct (_ && _). }
  rewrite E. destruct (ea_expense_id x =? expenseId); simpl; now rewrite IH.
Qed.

Section Run.
Variables (now : Z) (expenseId : Z) (comments : option string).
Variables (e : Expense) (ruleId : Z) (r : ApprovalRule).
Hypothesis rule_of_e : e_approval_rule_id e = Some ruleId.
Hypothesis r_sequential : ar_rule_type r = sequential.

(** While the approvers in [waiting] have not decided: their rows are
    Pending, every other row of the expense is Approved. *)
Definition in_progress (db : DB) (waiting : list Z) : Prop :=
  hd_error (select_expense expenseId db) = Some e
  /\ hd_error (select_rule ruleId db) = Some r
  /\ (forall ea, In ea (ledger_of expenseId db) ->
        exists a, ea_approver_id ea = Some a
                  /\ ((In a waiting /\ ea_status ea = pending)
                      \/ (~ In a waiting /\ ea_status ea = approved)))
  /\ (forall a, In a waiting ->
        exists ea, In ea (ledger_of expenseId db) /\ ea_approver_id ea = Some a).

Lemma in_progress_check (db : DB) (waiting : list Z) :
  in_progress db waiting ->
  shouldUpdateExpenseStatus expenseId approved db
  = inr (match waiting with [] => Update approved | _ :: _ => NoUpdate end, db).
Proof.
  intros (He & Hr & Hrows & Hwait).
  unfold shouldUpdateExpenseStatus. tx_unfold.
  destruct (select_expense expenseId db) as [|e' l]; [discriminate|].
  injection He as ->. simpl. rewrite rule_of_e.
  destruct (select_rule ruleId db) as [|r' rs]; [discriminate|].
  injection Hr as ->. simpl. rewrite r_sequential.
  rewrite checkSequentialApproval_eq.
  assert (Er : existsb (fun ea => Status_eqb (ea_status ea) rejected)
                       (ledger_of expenseId db) = false).
  { destruct (existsb _ _) eqn:Er; [|reflexivity].
    apply existsb_exists in Er. destruct Er as (x & Hx & Hrej).
    apply Status_eqb_eq in Hrej.
    destruct (Hrows x Hx) as (a & _ & [[_ Hs]|[_ Hs]]); congruence. }
  rewrite Er. destruct waiting as [|b rest].
  - replace (forallb _ _) with true; [reflexivity|].
    symmetry. apply forallb_forall. intros x Hx. apply Status_eqb_eq.
    destruct (Hrows x Hx) as (a & _ & [[[] _]|[_ Hs]]). exact Hs.
  - replace (forallb _ _) with false; [reflexivity|].
    symmetry. destruct (forallb _ _) eqn:Ea; [|reflexivity].
    rewrite forallb_forall in Ea.
    destruct (Hwait b (or_introl eq_refl)) as (x & Hx & Hb).
    specialize (Ea x Hx). apply Status_eqb_eq in Ea.
    destruct (Hrows x Hx) as (a & Ha & [[_ Hs]|[Hn _]]); [congruence|].
    exfalso. apply Hn. left. congruence.
Qed.

Lemma in_progress_decided (db : DB) (a : Z) (rest : list Z) :
  NoDup (a :: rest) ->
  in_progress db (a :: rest) ->
  in_progress (decided now db expenseId a approved comments) rest.
Proof.
  intros Hnd (He & Hr & Hrows & Hwait).
  inversion Hnd as [|? ? Hna Hnd']. subst.
  split; [exact He|]. split; [exact Hr|]. rewrite ledger_of_decided. split.
  - intros ea Hin. apply in_map_iff in Hin. destruct Hin as (x & <- & Hx).
    destruct (Hrows x Hx) as (b & Hb & Hst).
    assert (Hxid : ea_expense_id x = expenseId).
    { apply filter_In in Hx. now apply Z.eqb_eq. }
    exists b. unfold decide_row, Sql.eq_param.
    rewrite Hxid, Hb, Z.eqb_refl. simpl.
    destruct (b =? a) eqn:Eb.
    + apply Z.eqb_eq in Eb. subst b.
      destruct Hst as [[_ Hs]|[Hn _]]; [|exfalso; apply Hn; now left].
      rewrite Hs. simpl. split; [reflexivity|]. right. now split.
    + apply Z.eqb_neq in Eb. simpl. split; [assumption|].
      destruct Hst as [[[Hab|Hb'] Hs]|[Hn Hs]].
      * congruence.
      * left. now split.
      * right. split; [|assumption]. intros Hb'. apply Hn. now right.
  - intros b Hb. destruct (Hwait b (or_intror Hb)) as (x & Hx & Hxb).
    exists (decide_row now expenseId a approved comments x). split.
    + now apply in_map.
    + unfold decide_row. now destruct (_ && _).
Qed.

Lemma record_all_in_progress (order : list Z) (db : DB) :
  order <> [] -> NoDup order -> in_progress db order ->
  let run := record_all now db expenseId order approved comments in
  fst run = repeat (inr NoUpdate) (List.length order - 1) ++ [inr (Update approved)]
  /\ expense_status (snd run) expenseId = Some approved
  /\ notifications (snd run)
     = notifications db ++ [status_notification (e_employee_id e) expenseId approved]
  /\ forall ea, In ea (ledger_of expenseId (snd run)) -> ea_status ea = approved.
Proof.
  revert db. induction order as [|a rest IH]; intros db Hne Hnd Hinv; [congruence|].
  pose proof (in_progress_decided db a rest Hnd Hinv) as Hinv1.
  pose proof (in_progress_check _ _ Hinv1) as Hcheck.
  destruct Hinv as (He & _).
  destruct (select_expense_hd _ _ _ He) as (l & El & Hid).
  cbn [record_all]. rewrite processApproval_eq, El, Hcheck.
  destruct rest as [|b rest'].
  - cbn. split; [reflexivity|]. split; [|split; [reflexivity|]].
    + apply expense_status_closed.
      change (select_expense expenseId (decided ?n ?d ?x ?y ?z ?c))
        with (select_expense expenseId d).
      rewrite El. discriminate.
    + intros ea Hin.
      change (ledger_of expenseId (closed ?d ?x ?u ?s))
        with (ledger_of expenseId d) in Hin.
      destruct Hinv1 as (_ & _ & Hrows & _).
      destruct (Hrows ea Hin) as (x & _ & [[[] _]|[_ Hs]]). exact Hs.
  - inversion Hnd as [|? ? _ Hnd']. subst.
    specialize (IH (decided now db expenseId a approved comments)
                   ltac:(discriminate) Hnd' Hinv1).
    cbv zeta in IH.
    destruct (record_all now (decided now db expenseId a approved comments)
                expenseId (b :: rest') approved comments) as [rs db2].
    cbn [fst snd] in *. destruct IH as (Hrs & Hst & Hn & Hall).
    split; [|split; [assumption|split; assumption]].
    rewrite Hrs. cbn [List.length]. rewrite !Nat.sub_succ, !Nat.sub_0_r.
    reflexivity.
Qed.

End Run.

(** One Approved decision under a Sequential rule: it reports Approved
    exactly when it leaves every ledger row of the expense Approved, and then
    the expense is Approved. *)
Lemma processApproval_sequential (now : Z) (db : DB) (expenseId approverId : Z)
  (comments : option string) (e : Expense) (ruleId : Z) (r : ApprovalRule) :
  hd_error (select_expense expenseId db) = Some e ->
  e_approval_rule_id e = Some ruleId ->
  hd_error (select_rule ruleId db) = Some r ->
  ar_rule_type r = sequential ->
  exists o db',
    processApproval now db expenseId approverId approved comments = (inr o, db')
    /\ (o = Update approved <->
        forall ea, In ea (ledger_of expenseId db') -> ea_status ea = approved)
    /\ (o = Update approved -> expense_status db' expenseId = Some approved).
Proof.
  intros He Hrule Hr Hseq.
  destruct (select_expense_hd _ _ _ He) as (l & El & Hid).
  rewrite processApproval_eq, El.
  set (db1 := decided now db expenseId approverId approved comments).
  assert (Hcheck : shouldUpdateExpenseStatus expenseId approved db1
                   = checkSequentialApproval expenseId db1).
  { unfold shouldUpdateExpenseStatus. tx_unfold.
    change (select_expense expenseId db1) with (select_expense expenseId db).
    rewrite El. simpl. rewrite Hrule.
    change (select_rule ruleId db1) with (select_rule ruleId db).
    destruct (select_rule ruleId db) as [|r' rs]; [discriminate|].
    injection Hr as ->. now rewrite Hseq. }
  rewrite Hcheck.
  pose proof (checkSequentialApproval_approved expenseId db1) as Hiff.
  destruct (checkSequentialApproval_reads expenseId db1) as [o Ho].
  rewrite Ho in *. exists o.
  assert (Ho' : o = Update approved <->
                forall ea, In ea (ledger_of expenseId db1) -> ea_status ea = approved).
  { rewrite <- Hiff. split; [now intros ->|now intros [= ->]]. }
  destruct o as [|s]; eexists; (split; [reflexivity|]).
  - split; [exact Ho'|discriminate].
  - split; [exact Ho'|]. intros [= ->]. apply expense_status_closed.
    change (select_expense expenseId db1) with (select_expense expenseId db).
    rewrite El. discriminate.
Qed.

(** C6: under a Sequential rule the completion check reports Approved
    exactly when every ledger row of the expense is Approved, and a decision
    sets the expense to Approved exactly in that case.  When the rows of the
    expense are the Pending rows of n different approvers, and these approve
    one after the other in any order, every decision but the last reports no
    update, the last one reports Approved, the expense ends Approved, with
    every row Approved and a single status notification written: the
    transition happens once. *)
Theorem sequential_all_approve (now : Z) (db : DB) (expenseId : Z)
  (comments : option string) (e : Expense) (ruleId : Z) (r : ApprovalRule)
  (approvers order : list Z) :
  hd_error (select_expense expenseId db) = Some e ->
  e_approval_rule_id e = Some ruleId ->
  hd_error (select_rule ruleId db) = Some r ->
  ar_rule_type r = sequential ->
  approvers <> [] -> NoDup approvers ->
  map ea_approver_id (ledger_of expenseId db) = map Some approvers ->
  (forall ea, In ea (ledger_of expenseId db) -> ea_status ea = pending) ->
  Permutation approvers order ->
  (forall db', checkSequentialApproval expenseId db' = inr (Update approved, db')
               <-> forall ea, In ea (ledger_of expenseId db') ->
                              ea_status ea = approved)
  /\ (forall db' approverId e',
        hd_error (select_expense expenseId db') = Some e' ->
        e_approval_rule_id e' = Some ruleId ->
        hd_error (select_rule ruleId db') = Some r ->
        exists o db'',
          processApproval now db' expenseId approverId approved comments
            = (inr o, db'')
          /\ (o = Update approved <->
              forall ea, In ea (ledger_of expenseId db'') ->
                         ea_status ea = approved)
          /\ (o = Update approved ->
              expense_status db'' expenseId = Some approved))
  /\ (let run := record_all now db expenseId order approved comments in
      fst run = repeat (inr NoUpdate) (List.length order - 1)
                ++ [inr (Update approved)]
      /\ expense_status (snd run) expenseId = Some approved
      /\ notifications (snd run)
         = notifications db
           ++ [status_notification (e_employee_id e) expenseId approved]
      /\ forall ea, In ea (ledger_of expenseId (snd run)) ->
                    ea_status ea = approved).
Proof.
  intros He Hrule Hr Hseq Hne Hnd Hrows Hpend Hperm.
  split; [intros db'; apply checkSequentialApproval_approved|].
  split.
  { intros db' approverId e' He' Hrule' Hr'.
    now apply (processApproval_sequential now db' expenseId approverId comments
                 e' ruleId r). }
  apply (record_all_in_progress now expenseId comments e ruleId r Hrule Hseq).
  - intros ->. apply Permutation_sym, Permutation_nil in Hperm. congruence.
  - eapply Permutation_NoDup; eassumption.
  - split; [assumption|]. split; [assumption|]. split.
    + intros ea Hin.
      assert (Ha : In (ea_approver_id ea) (map Some approvers)).
      { rewrite <- Hrows. now apply in_map. }
      apply in_map_iff in Ha. destruct Ha as (a & Ha & Hin').
      exists a. split; [now symmetry|]. left. split; [|now apply Hpend].
      eapply Permutation_in; eassumption.
    + intros a Ha.
      assert (Hin : In (Some a) (map ea_approver_id (ledger_of expenseId db))).
      { rewrite Hrows. apply in_map.
        eapply Permutation_in; [symmetry|]; eassumption. }
      apply in_map_iff in Hin. destruct Hin as (ea & Hea & Hin).
      now exists ea.
Qed.

(** The theorem at work: three steps, decided in the order 103, 101, 102. *)
Lemma sequential_all_approve_witness :
  fst (record_all 0 (Scenario.submitted Scenario.three_steps) 1
         [103; 101; 102] approved None)
  = [inr NoUpdate; inr NoUpdate; inr (Update approved)]
  /\ expense_status
       (snd (record_all 0 (Scenario.submitted Scenario.three_steps) 1
               [103; 101; 102] approved None)) 1
     = Some approved.
Proof.
  assert (Hnd : NoDup [101; 102; 103]).
  { repeat constructor; simpl; intuition discriminate. }
  assert (Hpend : forall ea,
             In ea (ledger_of 1 (Scenario.submitted Scenario.three_steps)) ->
             ea_status ea = pending).
  { intros ea Hin. vm_compute in Hin.
    repeat (destruct Hin as [<-|Hin]; [reflexivity|]). destruct Hin. }
  assert (Hperm : Permutation [101; 102; 103] [103; 101; 102]).
  { apply Permutation_sym. apply (Permutation_cons_app [101; 102] [] 103).
    rewrite app_nil_r. apply Permutation_refl. }
  destruct (sequential_all_approve 0 (Scenario.submitted Scenario.three_steps) 1
              None Scenario.expense1 1 (Scenario.rule sequential None None)
              [101; 102; 103] [103; 101; 102]
              eq_refl eq_refl eq_refl eq_refl ltac:(discriminate) Hnd eq_refl
              Hpend Hperm) as (_ & _ & Hrun & Hst & _).
  split; [exact Hrun|exact Hst].
Defined.

End Sequential.

(** * Further properties of the service *)

(** ** What the workflow builders write *)

Section Builders.
Import ApprovalService Frame.

Lemma Appends_refl (expenseId : Z) (db : DB) : Appends expenseId db db.
Proof.
  exists []. split; [|intros ea []]. rewrite app_nil_r. now destruct db.
Qed.

Lemma Appends_trans (expenseId : Z) (db1 db2 db3 : DB) :
  Appends expenseId db1 db2 -> Appends expenseId db2 db3 ->
  Appends expenseId db1 db3.
Proof.
  intros (r1 & -> & H1) (r2 & -> & H2). exists (r1 ++ r2). split.
  - simpl. unfold with_expense_approvals. simpl. now rewrite app_assoc.
  - intros ea Hin. apply in_app_or in Hin. destruct Hin; auto.
Qed.

Lemma insert_approval_Appends (expenseId : Z) (a : option Z) (o : Z) (db : DB) :
  exists db', insert_approval expenseId a o db = inr (tt, db')
              /\ Appends expenseId db db'.
Proof.
  eexists. split; [reflexivity|].
  exists [pending_row expenseId a o]. split; [reflexivity|].
  intros ea [<-|[]]. reflexivity.
Qed.

Lemma for_each_Appends {A : Type} (expenseId : Z) (body : A -> Tx.t unit)
  (xs : list A) :
  (forall x db db', body x db = inr (tt, db') -> Appends expenseId db db') ->
  forall db db', Tx.for_each xs body db = inr (tt, db') -> Appends expenseId db db'.
Proof.
  intros Hbody. induction xs as [|x xs IH]; intros db db'; simpl.
  - intros [= <-]. apply Appends_refl.
  - unfold Tx.bind. destruct (body x db) as [err|[[] db1]] eqn:E; [discriminate|].
    intros H. eapply Appends_trans; eauto.
Qed.

Lemma Appends_select_expense (expenseId x : Z) (db db' : DB) :
  Appends expenseId db db' -> select_expense x db' = select_expense x db.
Proof. now intros (rows & -> & _). Qed.

Lemma Appends_tables (expenseId : Z) (db db' : DB) :
  Appends expenseId db db' ->
  approval_rules db' = approval_rules db
  /\ approval_rule_steps db' = approval_rule_steps db
  /\ users db' = users db
  /\ expenses db' = expenses db
  /\ notifications db' = notifications db.
Proof. intros (rows & -> & _). now repeat split. Qed.

Lemma step_body_Appends (expenseId : Z) (step : ApprovalRuleStep) (db db' : DB) :
  Tx.bind (step_approver expenseId step) (fun approverId =>
    if Js.truthy approverId
    then insert_approval expenseId approverId (ars_step_order step)
    else Tx.ret tt) db = inr (tt, db') ->
  Appends expenseId db db'.
Proof.
  unfold Tx.bind.
  assert (Hs : forall v db1, step_approver expenseId step db = inr (v, db1) ->
                             db1 = db).
  { unfold step_approver. intros v db1.
    destruct (ars_approver_role step) as [[| |]|]; tx_unfold;
      try (now intros [= _ <-]).
    unfold Tx.first_row.
    destruct (select_expense expenseId db); tx_unfold; [discriminate|].
    now intros [= _ <-]. }
  destruct (step_approver expenseId step db) as [err|[v db1]] eqn:E;
    [discriminate|].
  specialize (Hs _ _ eq_refl). subst db1. destruct (Js.truthy v).
  - destruct (insert_approval_Appends expenseId v (ars_step_order step) db)
      as (db2 & -> & H). now intros [= <-].
  - unfold Tx.ret. intros [= <-]. apply Appends_refl.
Qed.

Lemma createSequentialApprovals_Appends (expenseId ruleId : Z) (db db' : DB) :
  createSequentialApprovals expenseId ruleId db = inr (tt, db') ->
  Appends expenseId db db'.
Proof.
  unfold createSequentialApprovals. unfold Tx.bind at 1. unfold Tx.query.
  apply for_each_Appends. intros x d d'. apply step_body_Appends.
Qed.

(** The rows [createPercentageApprovals] writes: one per active manager or
    admin of the expense's company, in the order of the users table. *)
Lemma createPercentageApprovals_eq (expenseId ruleId : Z) (db : DB) :
  createPercentageApprovals expenseId ruleId db =
  match select_expense expenseId db with
  | [] => inl Tx.TypeError
  | e :: _ =>
      inr (tt, with_expense_approvals db
                 (expense_approvals db
                  ++ map (fun u => pending_row expenseId (Some (u_id u)) 1)
                         (select_approvers (e_company_id e) db)))
  end.
Proof.
  unfold createPercentageApprovals. tx_unfold. unfold Tx.first_row.
  destruct (select_expense expenseId db) as [|e l]; [reflexivity|]. tx_unfold.
  set (us := select_approvers (e_company_id e) db). clearbody us.
  revert db. induction us as [|u us IH]; intros db; simpl.
  - unfold Tx.ret. rewrite app_nil_r. now destruct db.
  - unfold Tx.bind, insert_approval, Tx.exec. rewrite IH. simpl.
    unfold with_expense_approvals. simpl. now rewrite <- app_assoc.
Qed.

Lemma filter_length_In {A : Type} (f : A -> bool) (l : list A) (x : A) :
  In x l -> f x = true -> (1 <= List.length (filter f l))%nat.
Proof.
  induction l as [|y l IH]; simpl; [intros []|].
  intros [->|Hin] Hf.
  - rewrite Hf. simpl. lia.
  - destruct (f y); simpl; [lia|]. now apply IH.
Qed.

Lemma select_approvers_In (companyId : option Z) (db : DB) (u : User) :
  In u (select_approvers companyId db) <->
  In u (users db)
  /\ (exists c, u_company_id u = Some c /\ companyId = Some c)
  /\ (u_role u = UserRole.manager \/ u_role u = UserRole.admin)
  /\ u_is_active u = true.
Proof.
  unfold select_approvers. rewrite filter_In, !andb_true_iff.
  unfold Sql.eq_null, manager_or_admin. split.
  - intros (Hin & (Hc & Hr) & Ha). repeat split; try assumption.
    + destruct (u_company_id u) as [c|]; [|discriminate].
      destruct companyId as [c'|]; [|discriminate].
      apply Z.eqb_eq in Hc. subst. now exists c'.
    + destruct (u_role u); auto. discriminate.
  - intros (Hin & (c & -> & ->) & Hr & Ha). rewrite Z.eqb_refl.
    repeat split; try assumption. now destruct Hr as [->| ->].
Qed.

(** X1: for an existing expense, [createPercentageApprovals] appends one
    Pending row with step order 1 for each active manager or admin of the
    expense's company, in the order of the users table, and for nobody else;
    the rule id plays no part, and the submitter is not left out: an employee
    who is a manager or admin gets a row for the own expense. *)
Theorem createPercentageApprovals_rows (db : DB) (expenseId ruleId : Z)
  (e : Expense) :
  hd_error (select_expense expenseId db) = Some e ->
  exists rows,
    createPercentageApprovals expenseId ruleId db
      = inr (tt, with_expense_approvals db (expense_approvals db ++ rows))
    /\ map ea_approver_id rows
       = map (fun u => Some (u_id u)) (select_approvers (e_company_id e) db)
    /\ (forall ea, In ea rows ->
          ea_expense_id ea = expenseId /\ ea_step_order ea = 1
          /\ ea_status ea = pending)
    /\ (forall u, In u (select_approvers (e_company_id e) db) <->
          In u (users db)
          /\ (exists c, u_company_id u = Some c /\ e_company_id e = Some c)
          /\ (u_role u = UserRole.manager \/ u_role u = UserRole.admin)
          /\ u_is_active u = true)
    /\ (forall u, In u (select_approvers (e_company_id e) db) ->
          e_employee_id e = Some (u_id u) ->
          In (e_employee_id e) (map ea_approver_id rows)).
Proof.
  intros He. destruct (select_expense_hd _ _ _ He) as (l & El & _).
  exists (map (fun u => pending_row expenseId (Some (u_id u)) 1)
              (select_approvers (e_company_id e) db)).
  split; [now rewrite createPercentageApprovals_eq, El|].
  split; [now rewrite map_map|]. split; [|split].
  - intros ea Hin. apply in_map_iff in Hin. destruct Hin as (u & <- & _).
    now repeat split.
  - intros u. apply select_approvers_In.
  - intros u Hu Hemp. rewrite map_map. simpl. rewrite Hemp.
    apply in_map_iff. now exists u.
Qed.

(** A manager who submits under a Percentage rule is asked to approve the own
    expense. *)
Lemma createPercentageApprovals_rows_witness :
  exists rows,
    createPercentageApprovals 1 1 Scenario.own_expense
      = inr (tt, with_expense_approvals Scenario.own_expense rows)
    /\ map ea_approver_id rows = [Some 10; Some 101].
Proof.
  destruct (createPercentageApprovals_rows Scenario.own_expense 1 1
              Scenario.expense1 eq_refl) as (rows & H & Hmap & _).
  exists rows. split; [exact H|exact Hmap].
Defined.

(** X2: for an existing expense and rule, [createHybridApprovals] appends
    the Percentage rows and then, when the rule has a specific approver, one
    more Pending row for that approver; a specific approver who is an active
    manager or admin of the company therefore holds at least two rows of
    the expense. *)
Theorem createHybridApprovals_rows (db : DB) (expenseId ruleId : Z)
  (e : Expense) (r : ApprovalRule) :
  hd_error (select_expense expenseId db) = Some e ->
  hd_error (select_rule ruleId db) = Some r ->
  let shared := map (fun u => pending_row expenseId (Some (u_id u)) 1)
                    (select_approvers (e_company_id e) db) in
  let own := if Js.truthy (ar_specific_approver_id r)
             then [pending_row expenseId (ar_specific_approver_id r) 1]
             else [] in
  createHybridApprovals expenseId ruleId db
    = inr (tt, with_expense_approvals db
                 (expense_approvals db ++ shared ++ own))
  /\ (forall u, In u (select_approvers (e_company_id e) db) ->
        ar_specific_approver_id r = Some (u_id u) -> u_id u <> 0 ->
        (2 <= List.length
                (filter (fun ea => Sql.eq_param (ea_approver_id ea) (u_id u))
                        (shared ++ own)))%nat).
Proof.
  intros He Hr shared own.
  destruct (select_expense_hd _ _ _ He) as (l & El & _). split.
  - unfold createHybridApprovals. unfold Tx.bind at 1.
    rewrite createPercentageApprovals_eq, El. fold shared.
    tx_unfold. unfold Tx.first_row.
    change (select_rule ruleId (with_expense_approvals db ?x))
      with (select_rule ruleId db).
    destruct (select_rule ruleId db) as [|r' rs]; [discriminate|].
    injection Hr as ->. tx_unfold. subst own.
    destruct (Js.truthy (ar_specific_approver_id r)).
    + unfold createSpecificApproverApproval, insert_approval, Tx.exec. simpl.
      unfold with_expense_approvals. simpl. now rewrite <- app_assoc.
    + unfold Tx.ret. now rewrite app_nil_r.
  - intros u Hu Hspec Hnz. rewrite filter_app, length_app.
    assert (H1 : (1 <= List.length
                    (filter (fun ea => Sql.eq_param (ea_approver_id ea) (u_id u))
                            shared))%nat).
    { apply (filter_length_In _ _ (pending_row expenseId (Some (u_id u)) 1)).
      - apply in_map_iff. now exists u.
      - simpl. apply Z.eqb_refl. }
    subst own. rewrite Hspec. simpl.
    destruct (u_id u =? 0) eqn:E0; [apply Z.eqb_eq in E0; contradiction|].
    simpl. rewrite Z.eqb_refl. simpl. lia.
Qed.

(** The specific approver 101 is one of the four managers: two rows. *)
Lemma createHybridApprovals_rows_witness :
  createHybridApprovals 1 1 Scenario.hybrid_manager_company
  = inr (tt, with_expense_approvals Scenario.hybrid_manager_company
               (map (fun a => pending_row 1 (Some a) 1)
                    [101; 102; 103; 104; 101])).
Proof.
  destruct (createHybridApprovals_rows Scenario.hybrid_manager_company 1 1
              Scenario.expense1
              (Scenario.rule hybrid (Some 50) (Some 101)) eq_refl eq_refl)
    as [H _].
  rewrite H. reflexivity.
Defined.

(** The loop of [createSequentialApprovals] without the expense row, when
    a manager step comes first: the steps before it issue no statement, and
    the manager step throws on [expense.rows[0]]. *)
Lemma for_each_steps_manager_first (expenseId : Z)
  (skipped : list ApprovalRuleStep) (s : ApprovalRuleStep)
  (rest : list ApprovalRuleStep) (db : DB) :
  select_expense expenseId db = [] ->
  ars_approver_role s = Some ApproverRole.manager ->
  (forall x, In x skipped ->
     ars_approver_role x <> Some ApproverRole.manager
     /\ Js.truthy (ars_approver_id x) = false) ->
  Tx.for_each (skipped ++ s :: rest) (fun step =>
    Tx.bind (step_approver expenseId step) (fun approverId =>
      if Js.truthy approverId
      then insert_approval expenseId approverId (ars_step_order step)
      else Tx.ret tt)) db
  = inl Tx.TypeError.
Proof.
  intros Hsel Hm Hskip.
  induction skipped as [|x skipped IH]; cbn [app Tx.for_each];
    unfold Tx.bind at 1.
  - unfold step_approver. rewrite Hm. tx_unfold. now rewrite Hsel.
  - destruct (Hskip x (or_introl eq_refl)) as [Hrole Hnone].
    assert (Ex : Tx.bind (step_approver expenseId x) (fun approverId =>
                   if Js.truthy approverId
                   then insert_approval expenseId approverId (ars_step_order x)
                   else Tx.ret tt) db = inr (tt, db)).
    { unfold step_approver.
      destruct (ars_approver_role x) as [[| |]|]; [congruence| | |];
        unfold Tx.bind, Tx.ret; now rewrite Hnone. }
    rewrite Ex. apply IH. intros y Hy. apply Hskip. now right.
Qed.

(** X3: whatever the rule type, a successful [createApprovalWorkflow] only
    appends to the ledger, and what it appends are Pending rows of that
    expense without comment or decision time; rules, steps, users, expenses,
    notifications and the earlier ledger rows are as they were. *)
Theorem createApprovalWorkflow_appends (db db' : DB) (expenseId ruleId : Z) :
  createApprovalWorkflow db expenseId ruleId = (inr tt, db') ->
  Appends expenseId db db'
  /\ approval_rules db' = approval_rules db
  /\ approval_rule_steps db' = approval_rule_steps db
  /\ users db' = users db
  /\ expenses db' = expenses db
  /\ notifications db' = notifications db.
Proof.
  intros H.
  assert (Ha : Appends expenseId db db').
  { unfold createApprovalWorkflow in H. tx_unfold.
    destruct (select_rule ruleId db) as [|r rs]; [discriminate|].
    destruct (ar_rule_type r).
    - destruct (createSequentialApprovals expenseId ruleId db)
        as [err|[[] d]] eqn:E; [discriminate|].
      injection H as <-. now apply createSequentialApprovals_Appends in E.
    - rewrite createPercentageApprovals_eq in H.
      destruct (select_expense expenseId db) as [|e l]; [discriminate|].
      injection H as <-. eexists. split; [reflexivity|].
      intros ea Hin. apply in_map_iff in Hin. now destruct Hin as (u & <- & _).
    - unfold createSpecificApproverApproval in H.
      destruct (insert_approval_Appends expenseId (ar_specific_approver_id r) 1 db)
        as (d & E & Hd). rewrite E in H. now injection H as <-.
    - unfold createHybridApprovals in H. unfold Tx.bind at 1 in H.
      rewrite createPercentageApprovals_eq in H.
      destruct (select_expense expenseId db) as [|e l]; [discriminate|].
      tx_unfold. unfold Tx.first_row in H.
      match type of H with
      | context [select_rule ruleId ?d] =>
          assert (Hp : Appends expenseId db d)
      end.
      { eexists. split; [reflexivity|]. intros ea Hin.
        apply in_map_iff in Hin. now destruct Hin as (u & <- & _). }
      match type of H with
      | context [select_rule ruleId ?d] => destruct (select_rule ruleId d) as [|r' rs']
      end; [discriminate|]. tx_unfold.
      destruct (Js.truthy (ar_specific_approver_id r')).
      + unfold createSpecificApproverApproval in H.
        match type of H with
        | context [insert_approval ?x ?a ?o ?d] =>
            destruct (insert_approval_Appends x a o d) as (d2 & E & Hd)
        end.
        rewrite E in H. injection H as <-. eapply Appends_trans; eassumption.
      + unfold Tx.ret in H. now injection H as <-. }
  split; [assumption|]. now apply (Appends_tables expenseId).
Qed.

(** The three-step Sequential workflow appends three rows. *)
Lemma createApprovalWorkflow_appends_witness :
  Appends 1 Scenario.three_steps (Scenario.submitted Scenario.three_steps).
Proof.
  apply (createApprovalWorkflow_appends Scenario.three_steps
           (Scenario.submitted Scenario.three_steps) 1 1).
  reflexivity.
Defined.

(** X4: [createApprovalWorkflow] does not check that the expense exists.
    When the rule and the expense exist the builder succeeds, whatever the
    rule type: it has no failure of its own.  When the expense row is missing
    and the builder reads it before it inserts anything (Percentage, Hybrid,
    or Sequential with a manager step first), the call fails with the
    TypeError of [expense.rows[0]], and the store is as it was. *)
Theorem createApprovalWorkflow_fails (db : DB) (expenseId ruleId : Z)
  (r : ApprovalRule) :
  hd_error (select_rule ruleId db) = Some r ->
  (select_expense expenseId db <> [] ->
   exists db', createApprovalWorkflow db expenseId ruleId = (inr tt, db'))
  /\ (select_expense expenseId db = [] -> reads_expense_first db ruleId r ->
      createApprovalWorkflow db expenseId ruleId = (inl Tx.TypeError, db)).
Proof.
  intros Hr. unfold createApprovalWorkflow, reads_expense_first. tx_unfold.
  destruct (select_rule ruleId db) as [|r' rs] eqn:Er; [discriminate|].
  injection Hr as ->.
  destruct (ar_rule_type r) eqn:Et.
  - unfold createSequentialApprovals. unfold Tx.bind at 1 3. unfold Tx.query.
    split.
    + destruct (select_expense expenseId db) as [|e l] eqn:Ee; [congruence|].
      intros _.
      rewrite (for_each_steps expenseId e l (select_steps ruleId db) db Ee);
        [eexists; reflexivity|].
      assert (Hin : In e (select_expense expenseId db)) by (rewrite Ee; now left).
      apply filter_In in Hin. now apply Z.eqb_eq.
    + intros Ee (skipped & s & rest & -> & Hm & Hskip).
      now rewrite (for_each_steps_manager_first expenseId skipped s rest db
                     Ee Hm Hskip).
  - rewrite createPercentageApprovals_eq.
    destruct (select_expense expenseId db) as [|e l].
    + split; [congruence|reflexivity].
    + split; [intros _; eexists; reflexivity|discriminate].
  - split; [|intros _ []]. intros _. unfold createSpecificApproverApproval.
    destruct (insert_approval_Appends expenseId (ar_specific_approver_id r) 1 db)
      as (d & E & _). rewrite E. now exists d.
  - unfold createHybridApprovals.
    destruct (select_expense expenseId db) as [|e l] eqn:Ee.
    + split; [congruence|]. intros _ _. unfold Tx.bind at 1.
      now rewrite createPercentageApprovals_eq, Ee.
    + split; [|discriminate]. intros _. unfold Tx.bind at 1.
      rewrite createPercentageApprovals_eq, Ee.
      tx_unfold. unfold Tx.first_row.
      change (select_rule ruleId (with_expense_approvals db ?x))
        with (select_rule ruleId db).
      rewrite Er. tx_unfold.
      destruct (Js.truthy (ar_specific_approver_id r)).
      * unfold createSpecificApproverApproval.
        match goal with
        | |- context [insert_approval ?x ?a ?o ?d] =>
            destruct (insert_approval_Appends x a o d) as (d2 & E & _)
        end.
        rewrite E. now exists d2.
      * eexists; reflexivity.
Qed.

(** The Sequential rule of three steps, manager step first: the workflow of
    expense 1 is built, and asked for an expense id that names no expense
    the call throws and leaves the store as it was. *)
Lemma createApprovalWorkflow_fails_witness :
  (exists db', createApprovalWorkflow Scenario.three_steps 1 1 = (inr tt, db'))
  /\ createApprovalWorkflow Scenario.three_steps 2 1
     = (inl Tx.TypeError, Scenario.three_steps).
Proof.
  destruct (createApprovalWorkflow_fails Scenario.three_steps 1 1
              (Scenario.rule sequential None None) eq_refl) as [Hok _].
  destruct (createApprovalWorkflow_fails Scenario.three_steps 2 1
              (Scenario.rule sequential None None) eq_refl) as [_ Hfail].
  split.
  - apply Hok. discriminate.
  - apply Hfail; [reflexivity|].
    exists [], (Scenario.step 1 ApproverRole.manager None),
      [Scenario.step 2 ApproverRole.specific_user (Some 102);
       Scenario.step 3 ApproverRole.specific_user (Some 103)].
    split; [reflexivity|]. split; [reflexivity|]. intros x [].
Defined.

End Builders.

(** ** What a decision touches, and when it fails *)

Section Decisions.
Import ApprovalService Frame.

Lemma leb_nan (x : float) : PrimFloat.leb x nan = false.
Proof.
  rewrite FloatAxioms.leb_spec. unfold SFleb, SFcompare.
  destruct (Prim2SF x); reflexivity.
Qed.

(** X5: [processApproval] throws exactly when no expense has the given id
    (the TypeError of [expense.rows[0].approval_rule_id]); the UPDATE of the
    ledger it had already issued is rolled back with it, so the store is as
    before. *)
Theorem processApproval_fails (now : Z) (db : DB) (expenseId approverId : Z)
  (action : Status) (comments : option string) :
  (select_expense expenseId db = [] ->
   processApproval now db expenseId approverId action comments
     = (inl Tx.TypeError, db))
  /\ (select_expense expenseId db <> [] ->
      exists o, fst (processApproval now db expenseId approverId action comments)
                = inr o).
Proof.
  split.
  - intros E. now rewrite processApproval_eq, E.
  - intros Hne.
    destruct (processApproval_ledger now db expenseId approverId action comments
                Hne) as (o & db' & H & _).
    exists o. now rewrite H.
Qed.

Lemma decide_row_keeps (now expenseId approverId : Z) (action : Status)
  (comments : option string) (ea : ExpenseApproval) :
  let ea' := decide_row now expenseId approverId action comments ea in
  ea_expense_id ea' = ea_expense_id ea
  /\ ea_approver_id ea' = ea_approver_id ea
  /\ ea_step_order ea' = ea_step_order ea
  /\ (~ targeted expenseId approverId ea -> ea' = ea).
Proof.
  unfold decide_row, targeted, Sql.eq_param.
  destruct (_ && _) eqn:E; [|now repeat split].
  repeat split. intros Hn. exfalso. apply Hn.
  rewrite !andb_true_iff in E. destruct E as [[E1 E2] E3].
  destruct (ea_approver_id ea) as [a|]; [|discriminate].
  apply Z.eqb_eq in E1, E2. subst. repeat split.
  now destruct (ea_status ea).
Qed.

(** X6: a decision never deletes or adds a ledger row and never rewrites a
    row other than the caller's Pending rows of that expense: every row keeps
    its expense, approver and step order, and the rows of other approvers, of
    other expenses, and the rows already decided are left as they were.
    Rules, steps and users are not touched, nor is any other expense. *)
Theorem processApproval_frame (now : Z) (db : DB) (expenseId approverId : Z)
  (action : Status) (comments : option string) :
  let db' := snd (processApproval now db expenseId approverId action comments) in
  approval_rules db' = approval_rules db
  /\ approval_rule_steps db' = approval_rule_steps db
  /\ users db' = users db
  /\ map ea_expense_id (expense_approvals db') = map ea_expense_id (expense_approvals db)
  /\ map ea_approver_id (expense_approvals db') = map ea_approver_id (expense_approvals db)
  /\ map ea_step_order (expense_approvals db') = map ea_step_order (expense_approvals db)
  /\ (forall ea, In ea (expense_approvals db) ->
                 ~ targeted expenseId approverId ea ->
                 In ea (expense_approvals db'))
  /\ map e_id (expenses db') = map e_id (expenses db)
  /\ (forall x, In x (expenses db) -> e_id x <> expenseId -> In x (expenses db')).
Proof.
  rewrite processApproval_eq.
  assert (Hmap : forall (B : Type) (f : ExpenseApproval -> B),
             (forall ea, f (decide_row now expenseId approverId action comments ea)
                         = f ea) ->
             map f (map (decide_row now expenseId approverId action comments)
                        (expense_approvals db))
             = map f (expense_approvals db)).
  { intros B f Hf. rewrite map_map. apply map_ext. exact Hf. }
  assert (H1 := Hmap _ ea_expense_id
                  (fun ea => proj1 (decide_row_keeps now expenseId approverId
                                      action comments ea))).
  assert (H2 := Hmap _ ea_approver_id
                  (fun ea => proj1 (proj2 (decide_row_keeps now expenseId
                                             approverId action comments ea)))).
  assert (H3 := Hmap _ ea_step_order
                  (fun ea => proj1 (proj2 (proj2 (decide_row_keeps now expenseId
                                             approverId action comments ea))))).
  assert (H4 : forall ea, In ea (expense_approvals db) ->
                 ~ targeted expenseId approverId ea ->
                 In ea (map (decide_row now expenseId approverId action comments)
                            (expense_approvals db))).
  { intros ea Hin Hn. apply in_map_iff. exists ea. split; [|assumption].
    now apply decide_row_keeps. }
  assert (H5 : forall s, map e_id (map (set_status expenseId s) (expenses db))
                         = map e_id (expenses db)).
  { intros s. rewrite map_map. apply map_ext. intros x. unfold set_status.
    now destruct (e_id x =? expenseId). }
  assert (H6 : forall s x, In x (expenses db) -> e_id x <> expenseId ->
                 In x (map (set_status expenseId s) (expenses db))).
  { intros s x Hin Hne. apply in_map_iff. exists x. split; [|assumption].
    unfold set_status. apply Z.eqb_neq in Hne. now rewrite Hne. }
  destruct (select_expense expenseId db) as [|e l]; [now repeat split|].
  destruct (shouldUpdateExpenseStatus expenseId action
              (decided now db expenseId approverId action comments))
    as [err|[[|s] d]]; cbn [snd]; repeat split; auto.
  - apply H5.
  - apply H6.
Qed.

Lemma shouldUpdateExpenseStatus_rule (expenseId : Z) (action : Status) (db : DB)
  (e : Expense) (ruleId : Z) (r : ApprovalRule) :
  hd_error (select_expense expenseId db) = Some e ->
  e_approval_rule_id e = Some ruleId ->
  hd_error (select_rule ruleId db) = Some r ->
  shouldUpdateExpenseStatus expenseId action db =
  if Status_eqb action rejected then inr (Update rejected, db)
  else match ar_rule_type r with
       | sequential => checkSequentialApproval expenseId db
       | percentage =>
           checkPercentageApproval expenseId (ar_percentage_required r) db
       | specific_approver => inr (Update approved, db)
       | hybrid => checkHybridApproval expenseId (ar_percentage_required r) db
       end.
Proof.
  intros He Hrule Hr. unfold shouldUpdateExpenseStatus. tx_unfold.
  destruct (select_expense expenseId db) as [|e' l]; [discriminate|].
  injection He as ->. simpl. rewrite Hrule.
  destruct (select_rule ruleId db) as [|r' rs]; [discriminate|].
  injection Hr as ->.
  destruct (Status_eqb action rejected); [reflexivity|].
  now destruct (ar_rule_type r).
Qed.

(** X7: under a SpecificApprover rule the ledger is not consulted: any
    Approved decision recorded for the expense, whoever the approver and
    whatever rows exist, reports Approved and sets the expense to Approved. *)
Theorem specific_approver_closes (now : Z) (db : DB) (expenseId approverId : Z)
  (comments : option string) (e : Expense) (ruleId : Z) (r : ApprovalRule) :
  hd_error (select_expense expenseId db) = Some e ->
  e_approval_rule_id e = Some ruleId ->
  hd_error (select_rule ruleId db) = Some r ->
  ar_rule_type r = specific_approver ->
  exists db',
    processApproval now db expenseId approverId approved comments
      = (inr (Update approved), db')
    /\ expense_status db' expenseId = Some approved.
Proof.
  intros He Hrule Hr Ht.
  destruct (select_expense_hd _ _ _ He) as (l & El & _).
  rewrite processApproval_eq, El.
  rewrite (shouldUpdateExpenseStatus_rule expenseId approved _ e ruleId r);
    try assumption.
  rewrite Ht. simpl. eexists. split; [reflexivity|].
  apply expense_status_closed.
  change (select_expense expenseId (decided ?n ?d ?x ?a ?y ?c))
    with (select_expense expenseId d).
  rewrite El. discriminate.
Qed.

(** Manager 102, who is not the designated approver 101, approves. *)
Lemma specific_approver_closes_witness :
  exists db',
    processApproval 0 (Scenario.submitted Scenario.one_approver) 1 102 approved None
      = (inr (Update approved), db')
    /\ expense_status db' 1 = Some approved.
Proof.
  apply (specific_approver_closes 0 (Scenario.submitted Scenario.one_approver)
           1 102 None Scenario.expense1 1
           (Scenario.rule specific_approver None (Some 101)));
    reflexivity.
Defined.

(** X8: when the expense has no rule (its approval_rule_id is NULL or names
    no rule), no decision changes it, not even a rejection: the call reports
    [{update: false}], the expense table and the notifications are as before,
    and only the caller's Pending rows are decided. *)
Theorem no_rule_no_update (now : Z) (db : DB) (expenseId approverId : Z)
  (action : Status) (comments : option string) (e : Expense) :
  hd_error (select_expense expenseId db) = Some e ->
  match e_approval_rule_id e with
  | Some ruleId => select_rule ruleId db = []
  | None => True
  end ->
  processApproval now db expenseId approverId action comments
    = (inr NoUpdate, decided now db expenseId approverId action comments)
  /\ expenses (decided now db expenseId approverId action comments) = expenses db
  /\ notifications (decided now db expenseId approverId action comments)
     = notifications db.
Proof.
  intros He Hrule. destruct (select_expense_hd _ _ _ He) as (l & El & _).
  rewrite processApproval_eq, El. split; [|now split].
  unfold shouldUpdateExpenseStatus. tx_unfold.
  change (select_expense expenseId (decided ?n ?d ?x ?a ?y ?c))
    with (select_expense expenseId d).
  rewrite El. simpl.
  destruct (e_approval_rule_id e) as [ruleId|]; [|reflexivity].
  change (select_rule ruleId (decided ?n ?d ?x ?a ?y ?c))
    with (select_rule ruleId d).
  now rewrite Hrule.
Qed.

(** A rejection on an expense that was auto-approved without a rule. *)
Lemma no_rule_no_update_witness :
  processApproval 0 Scenario.without_rule 1 101 rejected None
  = (inr NoUpdate, Scenario.without_rule).
Proof.
  apply (proj1 (no_rule_no_update 0 Scenario.without_rule 1 101 rejected None
                  (set_status 1 approved
                     {| e_id := 1; e_employee_id := Some 10;
                        e_company_id := Some 1; e_status := pending;
                        e_approval_rule_id := None |})
                  eq_refl I)).
Defined.

(** X9: with no ledger row for the expense the two checks part ways.  The
    Percentage check computes 0 / 0, a NaN that no threshold (not even an
    unset one) is below, and never approves; the Sequential check finds every
    row of the empty ledger Approved and approves. *)
Theorem empty_ledger_checks (db : DB) (expenseId : Z) (required : option Z) :
  ledger_of expenseId db = [] ->
  checkPercentageApproval expenseId required db = inr (NoUpdate, db)
  /\ checkSequentialApproval expenseId db = inr (Update approved, db).
Proof.
  intros El. split.
  - rewrite checkPercentageApproval_eq. unfold percentage_reached.
    rewrite El. simpl. unfold Js.ge_nullable.
    change (approvalPercentage 0 0) with nan. now rewrite leb_nan.
  - apply checkSequentialApproval_approved. rewrite El. intros ea [].
Qed.

(** The two checks on a store whose ledger is empty. *)
Lemma empty_ledger_checks_witness :
  checkPercentageApproval 1 (Some 1) Scenario.no_steps
    = inr (NoUpdate, Scenario.no_steps)
  /\ checkSequentialApproval 1 Scenario.no_steps
     = inr (Update approved, Scenario.no_steps).
Proof. apply (empty_ledger_checks Scenario.no_steps 1 (Some 1)). reflexivity. Defined.

(** X10: under a Sequential rule a rejection stays: once a ledger row of the
    expense is Rejected, every later Approved decision reports Rejected and
    leaves the expense Rejected. *)
Theorem sequential_rejection_stays (now : Z) (db : DB)
  (expenseId approverId : Z) (comments : option string) (e : Expense)
  (ruleId : Z) (r : ApprovalRule) (row : ExpenseApproval) :
  hd_error (select_expense expenseId db) = Some e ->
  e_approval_rule_id e = Some ruleId ->
  hd_error (select_rule ruleId db) = Some r ->
  ar_rule_type r = sequential ->
  In row (ledger_of expenseId db) -> ea_status row = rejected ->
  exists db',
    processApproval now db expenseId approverId approved comments
      = (inr (Update rejected), db')
    /\ expense_status db' expenseId = Some rejected
    /\ In row (ledger_of expenseId db').
Proof.
  intros He Hrule Hr Ht Hrow Hrej.
  destruct (select_expense_hd _ _ _ He) as (l & El & _).
  rewrite processApproval_eq, El.
  set (db1 := decided now db expenseId approverId approved comments).
  assert (Hin1 : In row (ledger_of expenseId db1)).
  { unfold db1. rewrite ledger_of_decided. apply in_map_iff. exists row.
    split; [|assumption]. apply decide_row_keeps.
    intros (_ & _ & Hp). congruence. }
  rewrite (shouldUpdateExpenseStatus_rule expenseId approved db1 e ruleId r);
    try assumption.
  rewrite Ht. change (Status_eqb approved rejected) with false. cbv iota.
  rewrite checkSequentialApproval_eq.
  replace (existsb (fun ea => Status_eqb (ea_status ea) rejected)
                   (ledger_of expenseId db1)) with true.
  - eexists. split; [reflexivity|]. split; [|exact Hin1].
    apply expense_status_closed.
    change (select_expense expenseId db1) with (select_expense expenseId db).
    rewrite El. discriminate.
  - symmetry. apply existsb_exists. exists row. split; [assumption|].
    now rewrite Hrej.
Qed.

(** Three steps: 102 rejects, then the manager 101 approves. *)
Lemma sequential_rejection_stays_witness :
  exists db',
    processApproval 0
      (Scenario.decide (Scenario.submitted Scenario.three_steps) 102 rejected)
      1 101 approved None
    = (inr (Update rejected), db')
    /\ expense_status db' 1 = Some rejected.
Proof.
  destruct (sequential_rejection_stays 0
              (Scenario.decide (Scenario.submitted Scenario.three_steps)
                 102 rejected)
              1 101 None (set_status 1 rejected Scenario.expense1) 1
              (Scenario.rule sequential None None)
              (decide_row 0 1 102 rejected None (pending_row 1 (Some 102) 2)))
    as (db' & H1 & H2 & _); try reflexivity.
  - vm_compute. tauto.
  - exists db'. now split.
Defined.

End Decisions.

(** ** Rule selection and unset lower bounds *)

Section NullBounds.
Import ApprovalService.

(** X11: a rule whose min_amount is NULL has no lower bound to fail, and
    under [ORDER BY min_amount DESC] it sorts before every rule that has
    one: when such a rule applies, the rule selected is one without
    min_amount, whatever the other rules are. *)
Theorem getApplicableRule_unset_min (db : DB) (amount companyId : Z)
  (r : ApprovalRule) :
  In r (approval_rules db) ->
  rule_applies amount companyId r = true ->
  ar_min_amount r = None ->
  exists r', getApplicableRule db amount companyId = Some r'
             /\ In r' (approval_rules db)
             /\ rule_applies amount companyId r' = true
             /\ ar_min_amount r' = None.
Proof.
  intros Hin Happ Hmin. unfold getApplicableRule.
  set (matches := filter (rule_applies amount companyId) (approval_rules db)).
  assert (Hr : In r matches) by (apply filter_In; now split).
  destruct (hd_error (Sql.order_by rule_before matches)) as [r'|] eqn:E.
  - exists r'. split; [reflexivity|].
    destruct (hd_order_by_first _ rule_before_asym rule_before_negtrans _ _ E)
      as [Hr' Hfirst].
    apply filter_In in Hr'. destruct Hr' as [Hr' Happ'].
    repeat split; try assumption.
    specialize (Hfirst r Hr). unfold rule_before in Hfirst.
    rewrite Hmin in Hfirst. simpl in Hfirst.
    now destruct (ar_min_amount r').
  - destruct (Sql.order_by rule_before matches) eqn:E'; [|discriminate].
    apply order_by_nil in E'. rewrite E' in Hr. destruct Hr.
Qed.

(** A catch-all rule without bounds beside rule A: the catch-all is taken. *)
Lemma getApplicableRule_unset_min_witness :
  exists r', getApplicableRule
               (Scenario.rules_db [Scenario.ruleA 1; Scenario.catch_all]) 5000 1
             = Some r'
             /\ ar_min_amount r' = None.
Proof.
  destruct (getApplicableRule_unset_min
              (Scenario.rules_db [Scenario.ruleA 1; Scenario.catch_all]) 5000 1
              Scenario.catch_all)
    as (r' & H & _ & _ & Hmin); try reflexivity.
  - right. now left.
  - exists r'. now split.
Defined.

End NullBounds.

(** ** The administrator's routes *)

Section Admin.
Import ApprovalService ApprovalsRoute ApprovalsAdmin.

Lemma force_row_spec (now expenseId : Z) (action : Status)
  (comments : option string) (ea : ExpenseApproval) :
  let ea' := force_row now expenseId action comments ea in
  ea_expense_id ea' = ea_expense_id ea
  /\ ea_approver_id ea' = ea_approver_id ea
  /\ ea_step_order ea' = ea_step_order ea
  /\ (ea_expense_id ea = expenseId -> ea_status ea = pending ->
      ea_status ea' = action
      /\ ea_comments ea' = Some (override_comment comments))
  /\ ((ea_expense_id ea <> expenseId \/ ea_status ea <> pending) -> ea' = ea).
Proof.
  unfold force_row.
  destruct (ea_expense_id ea =? expenseId) eqn:E1;
    destruct (Status_eqb (ea_status ea) pending) eqn:E2; cbn [andb]; cbv zeta;
    (split; [reflexivity|]); (split; [reflexivity|]); (split; [reflexivity|]);
    split.
  - intros _ _. now split.
  - intros [Hn|Hn]; exfalso; apply Hn.
    + now apply Z.eqb_eq.
    + now apply Status_eqb_eq.
  - intros _ Hs. rewrite Hs in E2. discriminate.
  - reflexivity.
  - intros Hid. apply Z.eqb_neq in E1. contradiction.
  - reflexivity.
  - intros Hid. apply Z.eqb_neq in E1. contradiction.
  - reflexivity.
Qed.

Lemma filter_map_keeps_id (f : Expense -> Expense) (expenseId : Z)
  (l : list Expense) :
  (forall x, e_id (f x) = e_id x) ->
  filter (fun e => e_id e =? expenseId) (map f l)
  = map f (filter (fun e => e_id e =? expenseId) l).
Proof.
  intros Hf. induction l as [|x l IH]; simpl; [reflexivity|].
  rewrite Hf. destruct (e_id x =? expenseId); simpl; now rewrite IH.
Qed.

Lemma override_ledger (now : Z) (store : Store) (user : AuthUser)
  (expenseId : Z) (action : Status) (comments : option string) :
  approvalActionSchema action comments = true ->
  expense_approvals (db (snd (override now store user expenseId action comments)))
  = map (force_row now expenseId action comments)
        (expense_approvals (db store)).
Proof.
  intros Hv. unfold override. rewrite Hv. simpl.
  now destruct (select_expense expenseId _).
Qed.

Lemma override_expenses (now : Z) (store : Store) (user : AuthUser)
  (expenseId : Z) (action : Status) (comments : option string) :
  approvalActionSchema action comments = true ->
  expenses (db (snd (override now store user expenseId action comments)))
  = map (set_status_in_company expenseId (company_id user) action)
        (expenses (db store)).
Proof.
  intros Hv. unfold override. rewrite Hv. simpl.
  now destruct (select_expense expenseId _).
Qed.

(** X12: an override with a valid body, on an expense of the
    administrator's company, sets the expense to the given status whatever
    the ledger says, closes every Pending ledger row of the expense with that
    status and the comment 'Admin override: ...', leaves the rows already
    decided and the rows of other expenses as they were, and appends one
    audit record naming the administrator and the expense. *)
Theorem override_closes (now : Z) (store : Store) (user : AuthUser)
  (expenseId : Z) (action : Status) (comments : option string)
  (e : Expense) (c : Z) :
  approvalActionSchema action comments = true ->
  hd_error (select_expense expenseId (db store)) = Some e ->
  e_company_id e = Some c -> company_id user = Some c ->
  let store' := snd (override now store user expenseId action comments) in
  fst (override now store user expenseId action comments) = Done
  /\ expense_status (db store') expenseId = Some action
  /\ (forall ea, In ea (expense_approvals (db store')) ->
                 ea_expense_id ea = expenseId -> ea_status ea <> pending)
  /\ (forall ea, In ea (expense_approvals (db store)) ->
                 ea_expense_id ea = expenseId -> ea_status ea = pending ->
                 exists ea', In ea' (expense_approvals (db store'))
                             /\ ea_approver_id ea' = ea_approver_id ea
                             /\ ea_step_order ea' = ea_step_order ea
                             /\ ea_status ea' = action
                             /\ ea_comments ea' = Some (override_comment comments))
  /\ (forall ea, In ea (expense_approvals (db store)) ->
                 ea_expense_id ea <> expenseId \/ ea_status ea <> pending ->
                 In ea (expense_approvals (db store')))
  /\ audit_logs store'
     = audit_logs store
       ++ [ {| al_user_id := id user;
               al_expense_id := expenseId;
               al_action := "admin_override";
               al_new_values := (action, comments) |} ].
Proof.
  intros Hv He Hc Hu store'.
  assert (Hact : action <> pending).
  { unfold approvalActionSchema in Hv. intros ->. discriminate. }
  split; [unfold override; now rewrite Hv|]. split; [|split; [|split; [|split]]].
  - unfold expense_status, select_expense. subst store'.
    rewrite override_expenses by assumption.
    rewrite filter_map_keeps_id
      by (intros x; unfold set_status_in_company; now destruct (_ && _)).
    destruct (select_expense_hd _ _ _ He) as (l & El & Hid).
    unfold select_expense in El. rewrite El. simpl.
    unfold set_status_in_company. rewrite Hid, Hc, Hu. simpl.
    now rewrite !Z.eqb_refl.
  - intros ea Hin Hid. subst store'. rewrite override_ledger in Hin by assumption.
    apply in_map_iff in Hin. destruct Hin as (x & <- & _).
    destruct (force_row_spec now expenseId action comments x)
      as (Hx & _ & _ & Hp & Hn). cbv zeta in *.
    rewrite Hx in Hid.
    destruct (Status_eqb (ea_status x) pending) eqn:Es.
    + apply Status_eqb_eq in Es. destruct (Hp Hid Es) as [-> _]. exact Hact.
    + rewrite Hn; [|right]; intros Hs; rewrite Hs in Es; discriminate.
  - intros ea Hin Hid Hs. exists (force_row now expenseId action comments ea).
    subst store'. rewrite override_ledger by assumption.
    destruct (force_row_spec now expenseId action comments ea)
      as (_ & Ha & Ho & Hp & _). cbv zeta in *.
    destruct (Hp Hid Hs) as [H1 H2].
    split; [now apply in_map|]. now repeat split.
  - intros ea Hin Hn. subst store'. rewrite override_ledger by assumption.
    apply in_map_iff. exists ea. split; [|assumption].
    now apply force_row_spec.
  - subst store'. unfold override. now rewrite Hv.
Qed.

(** X13: after an override no decision gets through the route any more:
    for every caller and every valid body, the decision route answers 404
    'No pending approval found' and leaves the store as the override left
    it. *)
Theorem override_then_process (now : Z) (store : Store) (user : AuthUser)
  (expenseId : Z) (action : Status) (comments : option string) :
  approvalActionSchema action comments = true ->
  forall now' user' action' comments',
    approvalActionSchema action' comments' = true ->
    process now' (db (snd (override now store user expenseId action comments)))
      user' expenseId action' comments'
    = (NoPendingApproval,
       db (snd (override now store user expenseId action comments))).
Proof.
  intros Hv now' user' action' comments' Hv'.
  assert (Hact : action <> pending).
  { unfold approvalActionSchema in Hv. intros ->. discriminate. }
  unfold process. rewrite Hv'. simpl.
  rewrite pendingApproval_nil; [reflexivity|].
  intros row (Hin & Hid & _ & Hs).
  rewrite override_ledger in Hin by assumption.
  apply in_map_iff in Hin. destruct Hin as (x & <- & _).
  destruct (force_row_spec now expenseId action comments x)
    as (Hx & _ & _ & Hp & Hn). cbv zeta in *.
  rewrite Hx in Hid.
  destruct (Status_eqb (ea_status x) pending) eqn:Es.
  - apply Status_eqb_eq in Es. destruct (Hp Hid Es) as [H _]. congruence.
  - rewrite Hn in Hs; [|right]; [|intros H]; rewrite ?Hs, ?H in Es; discriminate.
Qed.

(** X14: the override of an expense of another company leaves the expense
    table as it was (the status is not changed), and yet closes every Pending
    ledger row of that expense and notifies its employee: the second UPDATE
    carries no company. *)
Theorem override_other_company (now : Z) (store : Store) (user : AuthUser)
  (expenseId : Z) (action : Status) (comments : option string) (e : Expense) :
  approvalActionSchema action comments = true ->
  hd_error (select_expense expenseId (db store)) = Some e ->
  (forall x, In x (expenses (db store)) -> e_id x = expenseId ->
             Sql.eq_null (e_company_id x) (company_id user) = false) ->
  let store' := snd (override now store user expenseId action comments) in
  expenses (db store') = expenses (db store)
  /\ (forall ea, In ea (expense_approvals (db store')) ->
                 ea_expense_id ea = expenseId -> ea_status ea <> pending)
  /\ notifications (db store')
     = notifications (db store)
       ++ [override_notification (e_employee_id e) expenseId action].
Proof.
  intros Hv He Hother store'.
  assert (Hact : action <> pending).
  { unfold approvalActionSchema in Hv. intros ->. discriminate. }
  assert (Hexp : map (set_status_in_company expenseId (company_id user) action)
                     (expenses (db store)) = expenses (db store)).
  { rewrite <- (map_id (expenses (db store))) at 2. apply map_ext_in.
    intros x Hx. unfold set_status_in_company.
    destruct (e_id x =? expenseId) eqn:Ex; [|reflexivity].
    apply Z.eqb_eq in Ex. now rewrite (Hother x Hx Ex). }
  split; [|split].
  - subst store'. now rewrite override_expenses.
  - intros ea Hin Hid. subst store'. rewrite override_ledger in Hin by assumption.
    apply in_map_iff in Hin. destruct Hin as (x & <- & _).
    destruct (force_row_spec now expenseId action comments x)
      as (Hx & _ & _ & Hp & Hn). cbv zeta in *.
    rewrite Hx in Hid.
    destruct (Status_eqb (ea_status x) pending) eqn:Es.
    + apply Status_eqb_eq in Es. destruct (Hp Hid Es) as [-> _]. exact Hact.
    + rewrite Hn; [|right]; intros Hs; rewrite Hs in Es; discriminate.
  - subst store'. unfold override. rewrite Hv. simpl.
    unfold select_expense at 1. simpl. rewrite Hexp.
    fold (select_expense expenseId (db store)).
    destruct (select_expense expenseId (db store)) as [|e' l]; [discriminate|].
    now injection He as ->.
Qed.

(** An administrator of company 1 steps in after one of three approvals. *)
Lemma override_closes_witness :
  expense_status
    (db (snd (override 5 Scenario.one_of_three Scenario.admin1 1 rejected
                (Some "late"%string)))) 1
  = Some rejected
  /\ List.length
       (audit_logs (snd (override 5 Scenario.one_of_three Scenario.admin1 1
                           rejected (Some "late"%string)))) = 1%nat.
Proof.
  destruct (override_closes 5 Scenario.one_of_three Scenario.admin1 1 rejected
              (Some "late"%string) (set_status 1 pending Scenario.expense1) 1
              eq_refl eq_refl eq_refl eq_refl) as (_ & Hs & _ & _ & _ & Ha).
  split; [exact Hs|]. now rewrite Ha.
Defined.

(** After that override, approver 102 is turned away. *)
Lemma override_then_process_witness :
  process 6
    (db (snd (override 5 Scenario.one_of_three Scenario.admin1 1 rejected None)))
    {| id := 102; company_id := Some 1 |} 1 approved None
  = (NoPendingApproval,
     db (snd (override 5 Scenario.one_of_three Scenario.admin1 1 rejected None))).
Proof.
  apply (override_then_process 5 Scenario.one_of_three Scenario.admin1 1
           rejected None eq_refl 6 {| id := 102; company_id := Some 1 |}
           approved None eq_refl).
Defined.

(** The administrator of company 2 overrides the expense of company 1. *)
Lemma override_other_company_witness :
  expenses
    (db (snd (override 5 Scenario.one_of_three Scenario.admin2 1 approved None)))
  = expenses (db Scenario.one_of_three)
  /\ List.length
       (notifications
          (db (snd (override 5 Scenario.one_of_three Scenario.admin2 1
                      approved None)))) = 1%nat.
Proof.
  destruct (override_other_company 5 Scenario.one_of_three Scenario.admin2 1
              approved None Scenario.expense1 eq_refl eq_refl)
    as (He & _ & Hn).
  - intros x Hx _. vm_compute in Hx. destruct Hx as [<-|[]]. reflexivity.
  - split; [exact He|]. now rewrite Hn.
Defined.

Lemma filter_filter_implied {A : Type} (f g : A -> bool) (l : list A) :
  (forall x, In x l -> f x = true -> g x = true) ->
  filter f (filter g l) = filter f l.
Proof.
  induction l as [|x l IH]; intros H; simpl; [reflexivity|].
  destruct (g x) eqn:Eg; simpl.
  - destruct (f x); rewrite IH; auto; intros y Hy; apply H; now right.
  - destruct (f x) eqn:Ef.
    + rewrite (H x (or_introl eq_refl) Ef) in Eg. discriminate.
    + apply IH. intros y Hy. apply H. now right.
Qed.

(** X15: the rule route never removes what an expense relies on.  A rule in
    use by any expense is refused (400) and the store is untouched; and
    whatever the answer, every rule id that some expense carries selects the
    same rule rows and the same steps afterwards, so the completion check of
    no expense loses its rule.  After the answer 'deleted', no rule of the
    caller's company has the id any more. *)
Theorem deleteRule_keeps_used_rules (d : DB) (user : AuthUser) (ruleId : Z) :
  let d' := snd (deleteRule d user ruleId) in
  ((exists e, In e (expenses d) /\ e_approval_rule_id e = Some ruleId) ->
   deleteRule d user ruleId = (InUse, d))
  /\ expenses d' = expenses d
  /\ expense_approvals d' = expense_approvals d
  /\ (forall e rid, In e (expenses d) -> e_approval_rule_id e = Some rid ->
        select_rule rid d' = select_rule rid d
        /\ select_steps rid d' = select_steps rid d)
  /\ (fst (deleteRule d user ruleId) = Deleted ->
      forall r, In r (select_rule ruleId d') ->
                Sql.eq_null (ar_company_id r) (company_id user) = false).
Proof.
  unfold deleteRule.
  destruct (filter (fun e => Sql.eq_param (e_approval_rule_id e) ruleId)
                   (expenses d)) as [|u us] eqn:Eu; cbn [fst snd].
  - split; [|split; [reflexivity|split; [reflexivity|split]]].
    + intros (e & He & Hr). exfalso.
      assert (Hin : In e (filter (fun e => Sql.eq_param (e_approval_rule_id e)
                                              ruleId) (expenses d))).
      { apply filter_In. split; [assumption|]. rewrite Hr. apply Z.eqb_refl. }
      rewrite Eu in Hin. destruct Hin.
    + intros e rid He Hr.
      assert (Hne : rid <> ruleId).
      { intros ->.
        assert (Hin : In e (filter (fun e => Sql.eq_param (e_approval_rule_id e)
                                                ruleId) (expenses d))).
        { apply filter_In. split; [assumption|]. rewrite Hr. apply Z.eqb_refl. }
        rewrite Eu in Hin. destruct Hin. }
      split.
      * unfold select_rule. simpl. apply filter_filter_implied.
        intros x _ Hx. apply Z.eqb_eq in Hx.
        destruct (ar_id x =? ruleId) eqn:Ex; [|reflexivity].
        apply Z.eqb_eq in Ex. congruence.
      * unfold select_steps. simpl.
        destruct (existsb _ (approval_rules d)); [|reflexivity].
        f_equal. apply filter_filter_implied.
        intros x _ Hx. apply Z.eqb_eq in Hx.
        destruct (ars_rule_id x =? ruleId) eqn:Ex; [|reflexivity].
        apply Z.eqb_eq in Ex. congruence.
    + intros _ r Hr. unfold select_rule in Hr. simpl in Hr.
      apply filter_In in Hr. destruct Hr as [Hr Hid].
      apply filter_In in Hr. destruct Hr as [_ Hk].
      rewrite Hid in Hk. simpl in Hk.
      now destruct (Sql.eq_null (ar_company_id r) (company_id user)).
  - split; [reflexivity|]. split; [reflexivity|]. split; [reflexivity|].
    split; [now split|discriminate].
Qed.



(** X17: the completion check goes by the rule as it is when the decision
    arrives, not as it was when the workflow was built: once the
    administrator has rewritten the rule of a pending expense into a
    SpecificApprover rule, the next Approved decision recorded for the
    expense closes it as Approved, whatever ledger the old rule had built. *)
Theorem updateRule_then_decision (now : Z) (d : DB) (user : AuthUser)
  (ruleId : Z) (value : RuleValue) (expenseId approverId : Z)
  (comments : option string) (e : Expense) (r : ApprovalRule) :
  hd_error (select_expense expenseId d) = Some e ->
  e_approval_rule_id e = Some ruleId ->
  hd_error (select_rule ruleId d) = Some r ->
  Sql.eq_null (ar_company_id r) (company_id user) = true ->
  ruleType value = specific_approver ->
  exists d',
    processApproval now (updateRule d user ruleId value) expenseId approverId
      approved comments = (inr (Update approved), d')
    /\ expense_status d' expenseId = Some approved.
Proof.
  intros He Hrule Hr Hc Ht.
  set (d1 := updateRule d user ruleId value).
  assert (He1 : hd_error (select_expense expenseId d1) = Some e) by exact He.
  assert (Hr1 : hd_error (select_rule ruleId d1)
                = Some (rewrite_rule ruleId (company_id user) value r)).
  { unfold d1, select_rule, updateRule. simpl.
    destruct (select_rule ruleId d) as [|r' rs] eqn:E; [discriminate|].
    injection Hr as ->. unfold select_rule in E.
    revert E. induction (approval_rules d) as [|x l IH]; [discriminate|].
    simpl. destruct (ar_id x =? ruleId) eqn:Ex.
    - intros [= -> _].
      assert (Hid : ar_id (rewrite_rule ruleId (company_id user) value r)
                    = ar_id r).
      { unfold rewrite_rule. now destruct (_ && _). }
      now rewrite Hid, Ex.
    - intros E.
      assert (Hid : ar_id (rewrite_rule ruleId (company_id user) value x)
                    = ar_id x).
      { unfold rewrite_rule. now destruct (_ && _). }
      rewrite Hid, Ex. now apply IH. }
  destruct (select_expense_hd _ _ _ He1) as (l & El & _).
  rewrite processApproval_eq, El.
  rewrite (shouldUpdateExpenseStatus_rule expenseId approved _ e ruleId
             (rewrite_rule ruleId (company_id user) value r));
    try assumption.
  assert (Hty : ar_rule_type (rewrite_rule ruleId (company_id user) value r)
                = specific_approver).
  { unfold rewrite_rule.
    assert (Hid : (ar_id r =? ruleId) = true).
    { destruct (select_rule ruleId d) as [|r' rs] eqn:E; [discriminate|].
      injection Hr as ->.
      assert (Hin : In r (select_rule ruleId d)) by (rewrite E; now left).
      now apply filter_In in Hin. }
    now rewrite Hid, Hc. }
  rewrite Hty. simpl. eexists. split; [reflexivity|].
  apply expense_status_closed.
  change (select_expense expenseId (decided ?n ?x ?i ?a ?y ?c))
    with (select_expense expenseId x).
  rewrite El. discriminate.
Qed.

(** The 60% rule over five approvers is rewritten after one approval. *)
Lemma updateRule_then_decision_witness :
  exists d',
    processApproval 0
      (updateRule (Scenario.submitted (Scenario.percentage_company 60 5))
         Scenario.admin1 1 Scenario.to_specific)
      1 101 approved None = (inr (Update approved), d')
    /\ expense_status d' 1 = Some approved.
Proof.
  apply (updateRule_then_decision 0
           (Scenario.submitted (Scenario.percentage_company 60 5))
           Scenario.admin1 1 Scenario.to_specific 1 101 None
           Scenario.expense1 (Scenario.rule percentage (Some 60) None));
    reflexivity.
Defined.

End Admin.


(** ** The exchange-rate cache *)

Section Currency.
Import CurrencyService.
Variable Rates : Type.

Lemma get_set_same (key : string) (v : Entry Rates) (cache : Cache Rates) :
  get Rates key (set Rates key v cache) = Some v.
Proof. unfold set. simpl. now rewrite String.eqb_refl. Qed.

Lemma get_set_other (key key' : string) (v : Entry Rates) (cache : Cache Rates) :
  key' <> key ->
  get Rates key' (set Rates key v cache) = get Rates key' cache.
Proof.
  intros Hne. unfold set. simpl.
  destruct (String.eqb key key') eqn:E;
    [apply String.eqb_eq in E; congruence|].
  induction cache as [|[k x] rest IH]; simpl; [reflexivity|].
  destruct (String.eqb k key) eqn:Ek; simpl.
  - apply String.eqb_eq in Ek. subst k. now rewrite E.
  - destruct (String.eqb k key'); [reflexivity|exact IH].
Qed.

(** X18: when the request fails, [getExchangeRates] leaves the cache as it
    is and serves the cached rates of that currency however old they are;
    it throws only when the currency has never been cached. *)
Theorem getExchangeRates_request_fails (now : Z) (baseCurrency : string)
  (cache : Cache Rates) :
  snd (getExchangeRates Rates now None baseCurrency cache) = cache
  /\ fst (getExchangeRates Rates now None baseCurrency cache)
     = match get Rates baseCurrency cache with
       | Some c => Returned Rates (rates Rates c)
       | None => Thrown Rates
       end.
Proof.
  unfold getExchangeRates.
  destruct (get Rates baseCurrency cache) as [c|]; [|now split].
  now destruct (now - timestamp Rates c <? cacheExpiry).
Qed.

(** X19: rates fetched for a currency that had no entry younger than an hour
    are stored under that currency with the time of storing, the entries of
    the other currencies untouched; every call for that currency made less
    than an hour (3,600,000 ms) after that time then returns the same rates
    without looking at the request and without changing the cache. *)
Theorem getExchangeRates_round_trip (now : Z) (r : Rates) (t : Z)
  (baseCurrency : string) (cache : Cache Rates) :
  match get Rates baseCurrency cache with
  | Some c => cacheExpiry <= now - timestamp Rates c
  | None => True
  end ->
  let cache' := snd (getExchangeRates Rates now (Some (r, t)) baseCurrency cache) in
  fst (getExchangeRates Rates now (Some (r, t)) baseCurrency cache)
    = Returned Rates r
  /\ get Rates baseCurrency cache' = Some {| rates := r; timestamp := t |}
  /\ (forall other, other <> baseCurrency ->
                    get Rates other cache' = get Rates other cache)
  /\ (forall now' fetch', now' - t < cacheExpiry ->
        getExchangeRates Rates now' fetch' baseCurrency cache'
        = (Returned Rates r, cache')).
Proof.
  intros Hold.
  assert (E : getExchangeRates Rates now (Some (r, t)) baseCurrency cache
              = (Returned Rates r,
                 set Rates baseCurrency {| rates := r; timestamp := t |} cache)).
  { unfold getExchangeRates.
    destruct (get Rates baseCurrency cache) as [c|]; [|reflexivity].
    apply Z.ltb_ge in Hold. now rewrite Hold. }
  rewrite E. cbn [fst snd]. split; [reflexivity|]. split; [|split].
  - apply get_set_same.
  - intros other Hne. now apply get_set_other.
  - intros now' fetch' Hfresh. unfold getExchangeRates.
    rewrite get_set_same. cbn [timestamp rates].
    apply Z.ltb_lt in Hfresh. now rewrite Hfresh.
Qed.

End Currency.

(** USD rates cached at time 0 are an hour old at time 3,600,000: they are
    fetched again, stored at time 3,600,250, and served 59 minutes later
    with the API down. *)
Lemma getExchangeRates_round_trip_witness :
  CurrencyService.cacheExpiry <= 3600000 - 0
  /\ CurrencyService.getExchangeRates Z 7140250 None "USD"
       (snd (CurrencyService.getExchangeRates Z 3600000 (Some (83, 3600250))
               "USD"
               [("USD"%string,
                 {| CurrencyService.rates := 80;
                    CurrencyService.timestamp := 0 |})]))
     = (CurrencyService.Returned Z 83,
        [("USD"%string,
          {| CurrencyService.rates := 83;
             CurrencyService.timestamp := 3600250 |})]).
Proof.
  assert (Hold : CurrencyService.cacheExpiry <= 3600000 - 0)
    by (vm_compute; discriminate).
  split; [exact Hold|].
  apply (getExchangeRates_round_trip Z 3600000 83 3600250 "USD"
           [("USD"%string,
             {| CurrencyService.rates := 80;
                CurrencyService.timestamp := 0 |})] Hold).
  reflexivity.
Defined.

(** ** The category of a receipt *)

Section Ocr.
Import OcrService.

Lemma first_category_In (lowerText : string)
  (entries : list (string * list string)) (category : string) :
  first_category lowerText entries = Some category ->
  exists keywords keyword,
    In (category, keywords) entries /\ In keyword keywords
    /\ includes lowerText keyword = true.
Proof.
  induction entries as [|[c ks] rest IH]; simpl; [discriminate|].
  destruct (existsb (includes lowerText) ks) eqn:E.
  - intros [= <-]. apply existsb_exists in E. destruct E as (k & Hk & Hi).
    exists ks, k. repeat split; auto.
  - intros H. destruct (IH H) as (ks' & k & Hin & Hk & Hi).
    exists ks', k. repeat split; auto.
Qed.

Lemma first_category_None (lowerText : string)
  (entries : list (string * list string)) :
  first_category lowerText entries = None <->
  forall category keywords keyword,
    In (category, keywords) entries -> In keyword keywords ->
    includes lowerText keyword = false.
Proof.
  induction entries as [|[c ks] rest IH]; simpl.
  - split; [intros _ ? ? ? []|reflexivity].
  - destruct (existsb (includes lowerText) ks) eqn:E.
    + split; [discriminate|]. intros H. exfalso.
      apply existsb_exists in E. destruct E as (k & Hk & Hi).
      rewrite (H c ks k (or_introl eq_refl) Hk) in Hi. discriminate.
    + rewrite IH. split.
      * intros H category keywords keyword [Heq|Hin] Hk.
        -- injection Heq as _ Hks. subst keywords.
           destruct (includes lowerText keyword) eqn:Ei; [|reflexivity].
           assert (Hx : existsb (includes lowerText) ks = true)
             by (apply existsb_exists; now exists keyword).
           congruence.
        -- now apply (H category keywords).
      * intros H category keywords keyword Hin.
        apply (H category keywords keyword). now right.
Qed.

(** X20: whatever the text, [categorizeExpense] answers with the name of one
    of the categories that the schema inserts; the answer is 'Other' exactly
    when none of the keywords occurs in the lower-cased text; and a text in
    which a Food keyword occurs is Food whatever else occurs in it, the
    categories being tried in the order Food, Travel, Accommodation, Office
    Supplies, Entertainment, Training. *)
Theorem categorizeExpense_category (toLowerCase : string -> string)
  (text : string) :
  In (categorizeExpense toLowerCase text) default_categories
  /\ (categorizeExpense toLowerCase text = "Other"%string <->
      forall category keywords keyword,
        In (category, keywords) categories -> In keyword keywords ->
        includes (toLowerCase text) keyword = false)
  /\ (forall keyword,
        In keyword ["restaurant"; "cafe"; "food"; "dining"; "meal"; "lunch";
                    "dinner"; "breakfast"; "pizza"; "burger"]%string ->
        includes (toLowerCase text) keyword = true ->
        categorizeExpense toLowerCase text = "Food"%string).
Proof.
  unfold categorizeExpense.
  destruct (first_category (toLowerCase text) categories) as [c|] eqn:E.
  - destruct (first_category_In _ _ _ E) as (ks & k & Hin & Hk & Hi).
    split; [|split].
    + unfold categories in Hin. simpl in Hin.
      repeat (destruct Hin as [[= <- _]|Hin]; [simpl; tauto|]). destruct Hin.
    + split.
      * intros ->. exfalso. unfold categories in Hin. simpl in Hin.
        repeat (destruct Hin as [Heq|Hin]; [discriminate Heq|]). destruct Hin.
      * intros H. rewrite (H c ks k Hin Hk) in Hi. discriminate.
    + intros keyword Hkw Hinc. revert E. unfold categories.
      cbn [first_category].
      replace (existsb (includes (toLowerCase text)) _) with true;
        [now intros [= <-]|].
      symmetry. apply existsb_exists. now exists keyword.
  - split; [simpl; tauto|]. split.
    + split; [|reflexivity]. intros _. now apply first_category_None.
    + intros keyword Hkw Hinc. exfalso.
      rewrite first_category_None in E.
      rewrite (E "Food"%string _ keyword (or_introl eq_refl) Hkw) in Hinc.
      discriminate.
Qed.

End Ocr.
